(** * lswpalette: a verification model of the palette core

    Shallow embedding of the state-carrying core of [src/lswpalette.py]
    (class [PaletteApp]) and of [src/colourutils.py].

    Modelling conventions.
    - Python [str] is [string]; the model covers ASCII text (code points
      below 128), which is all the program itself ever produces.
    - Python [int] is [Z]; Python [float] is the kernel's binary64 [float].
    - A raised exception is a value of [exn]; state changes made before a
      raise persist, as they do on the mutated [self].
    - Tk widgets are value holders: an [HSVVar]/[IntVar] is the integer it
      holds, a row of [self.rows] is the pair of its S and V values.
      Painting, dialogs and window geometry are left out.
    - The document handed to import/export is the [configparser] object:
      sections mapping option names to the values [get] returns. *)

From Stdlib Require Import ZArith Ascii Lia Bool.
From Stdlib Require String.
From Stdlib Require Import PrimFloat FloatOps SpecFloat Uint63.
From stdpp Require Import base option list gmap strings.

Set Warnings "-inexact-float".
Local Open Scope Z_scope.

(** ** Python built-ins on text *)

Module Py.

(** Exceptions that the modelled code can raise. *)
Inductive exn :=
  | ValueError | OverflowError | ZeroDivisionError
  | IndexError | KeyError | TypeError | AttributeError.

Definition code (c : ascii) : Z := Z.of_N (N_of_ascii c).

(** [str.isspace] on ASCII: TAB..CR, FS..US and the blank. *)
Definition isspace (c : ascii) : bool :=
  let n := code c in
  ((9 <=? n) && (n <=? 13)) || ((28 <=? n) && (n <=? 32)).

Definition upper_char (c : ascii) : ascii :=
  let n := code c in
  if (97 <=? n) && (n <=? 122) then ascii_of_N (Z.to_N (n - 32)) else c.

(** [s.upper()] *)
Fixpoint upper (s : string) : string :=
  match s with
  | EmptyString => EmptyString
  | String c r => String (upper_char c) (upper r)
  end.

(** [len(s)] *)
Definition len (s : string) : Z := Z.of_nat (String.length s).

(** [s.startswith("#")] *)
Definition startswith_hash (s : string) : bool :=
  match s with
  | String c _ => if ascii_dec c "#" then true else false
  | EmptyString => false
  end.

(** [s.lstrip("#")]: every leading ['#'] goes. *)
Fixpoint lstrip_hash (s : string) : string :=
  match s with
  | String c r => if ascii_dec c "#" then lstrip_hash r else s
  | EmptyString => EmptyString
  end.

Fixpoint lstrip (s : string) : string :=
  match s with
  | String c r => if isspace c then lstrip r else s
  | EmptyString => EmptyString
  end.

Fixpoint rstrip (s : string) : string :=
  match s with
  | EmptyString => EmptyString
  | String c r =>
      match rstrip r with
      | EmptyString => if isspace c then EmptyString else String c EmptyString
      | r' => String c r'
      end
  end.

(** [s.strip()] *)
Definition strip (s : string) : string := rstrip (lstrip s).

(** [bool(s)]: a string is truthy when it is not empty. *)
Definition truthy (s : string) : bool :=
  match s with EmptyString => false | _ => true end.

Fixpoint drop (n : nat) (s : string) : string :=
  match n, s with
  | O, _ => s
  | S n', String _ r => drop n' r
  | S _, EmptyString => EmptyString
  end.

Fixpoint take (n : nat) (s : string) : string :=
  match n, s with
  | S n', String c r => String c (take n' r)
  | _, _ => EmptyString
  end.

(** [s[i:j]] for [0 <= i <= j]: slices clamp, they never raise. *)
Definition slice (i j : nat) (s : string) : string := take (j - i) (drop i s).

(** [sep.join(l)] *)
Fixpoint join (sep : string) (l : list string) : string :=
  match l with
  | [] => EmptyString
  | [x] => x
  | x :: l' => x +:+ sep +:+ join sep l'
  end.

Definition flush (cur : string) : list string :=
  match cur with EmptyString => [] | _ => [cur] end.

(** [s.split()]: maximal runs of non-blank characters; [cur] is the run
    being read. *)
Fixpoint split_go (cur : string) (s : string) : list string :=
  match s with
  | EmptyString => flush cur
  | String c r =>
      if isspace c then flush cur ++ split_go EmptyString r
      else split_go (cur +:+ String c EmptyString) r
  end.

Definition split (s : string) : list string := split_go EmptyString s.

(** *** Integers and text *)

(** CPython's digit table: ['0'..'9'] are 0..9, letters of either case
    are 10..35. *)
Definition digit_value (c : ascii) : option Z :=
  let n := code c in
  if (48 <=? n) && (n <=? 57) then Some (n - 48)
  else if (97 <=? n) && (n <=? 122) then Some (n - 87)
  else if (65 <=? n) && (n <=? 90) then Some (n - 55)
  else None.

Definition digit_in (base : Z) (c : ascii) : option Z :=
  match digit_value c with
  | Some d => if d <? base then Some d else None
  | None => None
  end.

(** The digit loop of [int(s, base)]: digits with single underscores
    between them. [prev_us] says that the previous character was an
    underscore, [n] counts the digits read. The scan stops at the first
    character that is neither; [None] is a syntax error. *)
Fixpoint scan_digits (base : Z) (prev_us : bool) (n : nat) (acc : Z)
    (s : string) : option (Z * nat * string) :=
  match s with
  | EmptyString => if prev_us then None else Some (acc, n, s)
  | String c r =>
      if ascii_dec c "_" then
        if prev_us then None else scan_digits base true n acc r
      else
        match digit_in base c with
        | Some d => scan_digits base false (S n) (acc * base + d) r
        | None => if prev_us then None else Some (acc, n, s)
        end
  end.

Definition skip_sign (s : string) : bool * string :=
  match s with
  | String c r =>
      if ascii_dec c "+" then (false, r)
      else if ascii_dec c "-" then (true, r)
      else (false, s)
  | EmptyString => (false, s)
  end.

(** For base 16 a [0x]/[0X] prefix is skipped, and one underscore after
    it. *)
Definition skip_prefix (base : Z) (s : string) : string :=
  match s with
  | String c0 (String c1 r) =>
      if (base =? 16) && bool_decide (c0 = "0"%char)
         && (bool_decide (c1 = "x"%char) || bool_decide (c1 = "X"%char))
      then match r with
           | String c2 r' => if ascii_dec c2 "_" then r' else r
           | EmptyString => r
           end
      else s
  | _ => s
  end.

(** [int(s, base)] for base 10 and 16; [None] is [ValueError]. *)
Definition int_of (base : Z) (s : string) : option Z :=
  let '(neg, t) := skip_sign (lstrip s) in
  let t := skip_prefix base t in
  match t with
  | String c _ =>
      if ascii_dec c "_" then None
      else
        match scan_digits base false 0 0 t with
        | Some (v, n, rest) =>
            match n, lstrip rest with
            | S _, EmptyString => Some (if neg then - v else v)
            | _, _ => None
            end
        | None => None
        end
  | EmptyString => None
  end.

(** [int(x)] where [x] is what [SectionProxy.get] returned: [None] (the
    option is missing) raises [TypeError], a malformed string
    [ValueError]. *)
Definition int_of_opt (x : option string) : exn + Z :=
  match x with
  | None => inl TypeError
  | Some s => match int_of 10 s with Some z => inr z | None => inl ValueError end
  end.

Definition digit_char (d : Z) : ascii :=
  ascii_of_N (Z.to_N (if d <? 10 then 48 + d else 87 + d)).

(** The digits of [n >= 0] in [base], most significant first, in front of
    [acc]. *)
Fixpoint digits_go (fuel : nat) (base n : Z) (acc : string) : string :=
  match fuel with
  | O => acc
  | S fuel' =>
      let acc' := String (digit_char (n mod base)) acc in
      if n <? base then acc' else digits_go fuel' base (n / base) acc'
  end.

Definition digits (base n : Z) : string :=
  digits_go (S (Z.to_nat (Z.log2 n))) base n EmptyString.

(** [str(n)] *)
Definition str (n : Z) : string :=
  if n <? 0 then String "-" (digits 10 (- n)) else digits 10 n.

(** [f"{n:02x}"]: lower-case hexadecimal, zero-filled to width 2, the
    sign counting towards the width. *)
Definition format_02x (n : Z) : string :=
  if n <? 0 then
    String "-" (digits 16 (- n))
  else
    let d := digits 16 n in
    match d with
    | String _ EmptyString => String "0" d
    | _ => d
    end.

(** *** Exceptions as values *)

Global Instance sum_ret {E} : MRet (sum E) := fun _ x => inr x.
Global Instance sum_bind {E} : MBind (sum E) := fun _ _ f m =>
  match m with inl e => inl e | inr x => f x end.

(** *** Numbers *)

(** A Python number as the modelled code meets it: an [int] or a
    [float]. *)
Inductive num :=
  | Int (z : Z)
  | Float (f : float).

(** [float(z)]: the nearest double, ties to even; [OverflowError] when
    that is past the largest one. *)
Definition float_of_int (z : Z) : exn + float :=
  match binary_normalize prec emax z 0 false with
  | S754_infinity _ => inl OverflowError
  | sf => inr (SF2Prim sf)
  end.

Definition to_float (x : num) : exn + float :=
  match x with
  | Int z => float_of_int z
  | Float f => inr f
  end.

(** [int(f)]: truncation towards zero; NaN raises [ValueError], an
    infinity [OverflowError]. *)
Definition trunc (f : float) : exn + Z :=
  match Prim2SF f with
  | S754_zero _ => inr 0
  | S754_finite s m e =>
      let a := Z.shiftl (Z.pos m) e in
      inr (if s then - a else a)
  | S754_infinity _ => inl OverflowError
  | S754_nan => inl ValueError
  end.

(** [round(f)]: the nearest integer, ties to the even one. *)
Definition round (f : float) : exn + Z :=
  match Prim2SF f with
  | S754_zero _ => inr 0
  | S754_finite s m e =>
      let a :=
        if 0 <=? e then Z.shiftl (Z.pos m) e
        else
          let k := - e in
          let q := Z.shiftr (Z.pos m) k in
          let r := Z.pos m mod 2 ^ k in
          let half := 2 ^ (k - 1) in
          if r <? half then q
          else if half <? r then q + 1
          else if Z.even q then q else q + 1 in
      inr (if s then - a else a)
  | S754_infinity _ => inl OverflowError
  | S754_nan => inl ValueError
  end.

(** [f % 360] on a float: C's [fmod], which is exact, moved into
    [0, 360] when negative; NaN for NaN and the infinities. *)
Definition fmod360 (f : float) : float :=
  match Prim2SF f with
  | S754_zero _ => 0%float
  | S754_finite s m e =>
      let '(m', e') :=
        if 0 <=? e then (Z.shiftl (Z.pos m) e mod 360, 0)
        else (Z.pos m mod (360 * 2 ^ (- e)), e) in
      if m' =? 0 then 0%float
      else
        let r := Z.ldexp (of_uint63 (of_Z m')) e' in
        if s then (- r + 360)%float else r
  | _ => nan
  end.

(** [x % 360] *)
Definition mod360 (x : num) : num :=
  match x with
  | Int z => Int (z mod 360)
  | Float f => Float (fmod360 f)
  end.

(** [min(a, b)] and [max(a, b)] of the built-ins: the second argument
    replaces the first only when it compares strictly below (above). *)
Definition min2 (a b : float) : float := if (b <? a)%float then b else a.
Definition max2 (a b : float) : float := if (a <? b)%float then b else a.

End Py.

(** ** [colorsys.hsv_to_rgb] of the Python standard library *)

Module colorsys.

Definition hsv_to_rgb (h s v : float) : Py.exn + (float * float * float) :=
  if (s =? 0)%float then inr (v, v, v)
  else
    let h6 := (h * 6)%float in
    i ← Py.trunc h6;
    fi ← Py.float_of_int i;
    let f := (h6 - fi)%float in
    let p := (v * (1 - s))%float in
    let q := (v * (1 - s * f))%float in
    let t := (v * (1 - s * (1 - f)))%float in
    match i mod 6 with
    | 0 => inr (v, t, p)
    | 1 => inr (q, v, p)
    | 2 => inr (p, v, t)
    | 3 => inr (p, q, v)
    | 4 => inr (t, p, v)
    | 5 => inr (v, p, q)
    | _ => inl Py.TypeError
    end.

End colorsys.

(** ** [colourutils.py] *)

(** [hex_to_rgb_tuple]: the three slices [[0:2]], [[2:4]], [[4:6]] of the
    string without its leading ['#']s, each read in base 16. *)
Definition hex_to_rgb_tuple (hex_color : string) : Py.exn + (Z * Z * Z) :=
  let hex_color := Py.lstrip_hash hex_color in
  let chan (i : nat) : Py.exn + Z :=
    match Py.int_of 16 (Py.slice i (i + 2) hex_color) with
    | Some z => inr z
    | None => inl Py.ValueError
    end in
  r ← chan 0%nat; g ← chan 2%nat; b ← chan 4%nat; mret (r, g, b).

(** Lines 9-15 of [hsv_to_hex]: the three channel integers. *)
Definition hsv_channels (h_deg s_pct v_pct : Py.num) : Py.exn + (Z * Z * Z) :=
  hm ← Py.to_float (Py.mod360 h_deg);
  let h := (hm / 360)%float in
  sf ← Py.to_float s_pct;
  let s := Py.max2 0 (Py.min2 1 (sf / 100)) in
  vf ← Py.to_float v_pct;
  let v := Py.max2 0 (Py.min2 1 (vf / 100)) in
  '(r, g, b) ← colorsys.hsv_to_rgb h s v;
  r_i ← Py.round (r * 255);
  g_i ← Py.round (g * 255);
  b_i ← Py.round (b * 255);
  mret (r_i, g_i, b_i).

(** Line 16: [f"#{r_i:02x}{g_i:02x}{b_i:02x}"]. *)
Definition format_hex (r_i g_i b_i : Z) : string :=
  String "#" (Py.format_02x r_i +:+ Py.format_02x g_i +:+ Py.format_02x b_i).

Definition hsv_to_hex (h_deg s_pct v_pct : Py.num) : Py.exn + string :=
  '(r_i, g_i, b_i) ← hsv_channels h_deg s_pct v_pct;
  mret (format_hex r_i g_i b_i).

(** [is_light]: luma above 140; the three slices are read as
    [hex_color[1:3]], [[3:5]], [[5:7]]. *)
Definition is_light (hex_color : string) : Py.exn + bool :=
  let chan (i : nat) : Py.exn + Z :=
    match Py.int_of 16 (Py.slice i (i + 2) hex_color) with
    | Some z => inr z
    | None => inl Py.ValueError
    end in
  r ← chan 1%nat; g ← chan 3%nat; b ← chan 5%nat;
  rf ← Py.float_of_int r; gf ← Py.float_of_int g; bf ← Py.float_of_int b;
  mret (140 <? 0.299 * rf + 0.587 * gf + 0.114 * bf)%float.

(** ** [PaletteApp]: the state *)

Definition MIN_COLS : Z := 2.
Definition MAX_COLS : Z := 360.
Definition APP_VERSION : string := "0.1".

(** The fields of [self] that the core reads and writes. [cell_hex] is
    [None] until [_build_grid] creates the attribute. *)
Record PaletteApp := mkApp {
  cols : Z;
  h_var : Z;
  rows : list (Z * Z);
  cell_hex : option (list (list (option string)));
  palette_hexes : list string;
  palette_hex_set : gset string;
}.

Definition set_cols (x : Z) (a : PaletteApp) : PaletteApp :=
  mkApp x (h_var a) (rows a) (cell_hex a) (palette_hexes a) (palette_hex_set a).
Definition set_h_var (x : Z) (a : PaletteApp) : PaletteApp :=
  mkApp (cols a) x (rows a) (cell_hex a) (palette_hexes a) (palette_hex_set a).
Definition set_rows (x : list (Z * Z)) (a : PaletteApp) : PaletteApp :=
  mkApp (cols a) (h_var a) x (cell_hex a) (palette_hexes a) (palette_hex_set a).
Definition set_cell_hex (x : option (list (list (option string))))
    (a : PaletteApp) : PaletteApp :=
  mkApp (cols a) (h_var a) (rows a) x (palette_hexes a) (palette_hex_set a).
Definition set_palette_hexes (x : list string) (a : PaletteApp) : PaletteApp :=
  mkApp (cols a) (h_var a) (rows a) (cell_hex a) x (palette_hex_set a).
Definition set_palette_hex_set (x : gset string) (a : PaletteApp) : PaletteApp :=
  mkApp (cols a) (h_var a) (rows a) (cell_hex a) (palette_hexes a) x.

(** A method of [PaletteApp]: it runs on [self], returns or raises, and
    leaves [self] as it is at that point. *)
Definition M (A : Type) : Type := PaletteApp -> (Py.exn + A) * PaletteApp.

Global Instance M_ret : MRet M := fun _ x st => (inr x, st).
Global Instance M_bind : MBind M := fun _ _ f m st =>
  match m st with
  | (inl e, st') => (inl e, st')
  | (inr x, st') => f x st'
  end.

Definition get : M PaletteApp := fun st => (inr st, st).
Definition modify (f : PaletteApp -> PaletteApp) : M unit :=
  fun st => (inr tt, f st).
Definition raise {A} (e : Py.exn) : M A := fun st => (inl e, st).
Definition lift {A} (r : Py.exn + A) : M A := fun st => (r, st).

(** [for x in l: body(x)] *)
Fixpoint for_each {A} (l : list A) (body : A -> M unit) : M unit :=
  match l with
  | [] => mret tt
  | x :: l' => body x ;; for_each l' body
  end.

(** [[f(x) for x in l]] where [f] may raise. *)
Fixpoint traverse {A B} (f : A -> Py.exn + B) (l : list A) : Py.exn + list B :=
  match l with
  | [] => inr []
  | x :: l' => y ← f x; ys ← traverse f l'; mret (y :: ys)
  end.

(** [range(n)] *)
Definition range (n : Z) : list nat := seq 0 (Z.to_nat n).

(** ** Row model *)

(** [_add_row]: a new row holding [initial_s], [initial_v] goes last. *)
Definition add_row (initial_s initial_v : Z) : M unit :=
  modify (fun a => set_rows (rows a ++ [(initial_s, initial_v)]) a).

(** The default of [_on_add_row_click]. [(last_s + last_v) / 2] is exact
    in binary64 for the sums a row can hold, and [int] truncates it
    towards zero. *)
Definition add_row_default (rs : list (Z * Z)) : Z :=
  match last rs with
  | Some (last_s, last_v) => Z.max 0 (Z.min 100 (Z.quot (last_s + last_v) 2))
  | None => 70
  end.

(** [l.insert(i, x)] for [i >= 0]: past the end it appends. *)
Definition list_insert_at {A} (i : nat) (x : A) (l : list A) : list A :=
  take i l ++ x :: drop i l.

(** ** Palette matrix *)

(** [_build_grid]: a fresh [cell_hex] of [1 + len(rows)] rows of [cols]
    empty cells. *)
Definition build_grid : M unit :=
  modify (fun a =>
    set_cell_hex
      (Some (replicate (S (length (rows a))) (replicate (Z.to_nat (cols a)) None))) a).

(** [step = 360.0 / cols; [(base_h + step * i) % 360 for i in range(cols)]] *)
Definition hue_steps (cols base_h : Z) : Py.exn + list float :=
  cf ← Py.float_of_int cols;
  if (cf =? 0)%float then inl Py.ZeroDivisionError
  else
    let step := (360 / cf)%float in
    traverse (fun i : nat =>
      fi ← Py.float_of_int (Z.of_nat i);
      bf ← Py.float_of_int base_h;
      mret (Py.fmod360 (bf + step * fi))) (range cols).

(** [self.cell_hex[r][c] = v] *)
Definition set_cell (r c : nat) (v : string) : M unit := fun st =>
  match cell_hex st with
  | None => (inl Py.AttributeError, st)
  | Some m =>
      match m !! r with
      | None => (inl Py.IndexError, st)
      | Some row =>
          if bool_decide (c < length row)%nat
          then (inr tt, set_cell_hex (Some (<[r := <[c := Some v]> row]> m)) st)
          else (inl Py.IndexError, st)
      end
  end.

(** [for c in range(self.cols):
       self.cell_hex[r][c] = hsv_to_hex(hue_steps[c], s_val, v_val)] *)
Definition paint_row (r : nat) (hues : list float) (s_val v_val : Z) : M unit :=
  st ← get;
  for_each (range (cols st)) (fun c =>
    hue ← lift (from_option inr (inl Py.IndexError) (hues !! c));
    hex ← lift (hsv_to_hex (Py.Float hue) (Py.Int s_val) (Py.Int v_val));
    set_cell r c hex).

(** [_update_grid] *)
Definition update_grid : M unit :=
  st ← get;
  match cell_hex st with
  | None => mret tt
  | Some _ =>
      hues ← lift (hue_steps (cols st) (h_var st));
      paint_row 0 hues 100 100;;
      for_each (seq 1 (length (rows st))) (fun r =>
        st' ← get;
        match rows st' !! pred r with
        | Some (s_val, v_val) => paint_row r hues s_val v_val
        | None => raise Py.IndexError
        end)
  end.

(** [_on_add_row_click] *)
Definition on_add_row_click : M unit :=
  st ← get;
  let default := add_row_default (rows st) in
  add_row default default;; build_grid;; update_grid.

(** [_remove_row] *)
Definition remove_row (idx : nat) : M unit :=
  st ← get;
  match rows st !! idx with
  | None => raise Py.IndexError
  | Some _ => modify (set_rows (delete idx (rows st)));; build_grid;; update_grid
  end.

(** [_drag_end] once a drag is under way: [start] is
    [_drag_info["start_index"]], [insert_index] what the pointer
    resolved to. *)
Definition drag_end (start insert_index : nat) : M unit :=
  if bool_decide (insert_index = start) || bool_decide (insert_index = S start)
  then mret tt
  else
    st ← get;
    row ← lift (from_option inr (inl Py.IndexError) (rows st !! start));
    modify (set_rows (delete start (rows st)));;
    let insert_index :=
      if bool_decide (start < insert_index)%nat then pred insert_index
      else insert_index in
    modify (fun a => set_rows (list_insert_at insert_index row (rows a)) a);;
    build_grid;; update_grid.

(** ** Favorites *)

(** [_palette_add_color] *)
Definition palette_add_color (hex_color : string) : M unit :=
  st ← get;
  if negb (Py.truthy hex_color) then mret tt
  else if bool_decide (Py.upper hex_color ∈ Py.upper <$> palette_hexes st)
  then mret tt
  else
    let hex_color := Py.upper hex_color in
    if bool_decide (hex_color ∈ palette_hex_set st) then mret tt
    else
      modify (fun a => set_palette_hexes (palette_hexes a ++ [hex_color]) a);;
      modify (fun a => set_palette_hex_set ({[hex_color]} ∪ palette_hex_set a) a).

(** [_palette_remove_ctx], [ctx_hex] being [self._palette_ctx_hex]. *)
Definition palette_remove_ctx (ctx_hex : string) : M unit :=
  if negb (Py.truthy ctx_hex) then mret tt
  else
    let hex_target := Py.upper ctx_hex in
    modify (fun a => set_palette_hex_set (palette_hex_set a ∖ {[hex_target]}) a);;
    modify (fun a =>
      set_palette_hexes
        (List.filter (fun h => negb (bool_decide (Py.upper h = hex_target)))
           (palette_hexes a)) a).

(** The loop of [_apply_imported_palette]: first occurrences, in order. *)
Fixpoint ordered_go (seen : gset string) (l : list string) : list string :=
  match l with
  | [] => []
  | h :: l' =>
      if bool_decide (h ∈ seen) then ordered_go seen l'
      else h :: ordered_go ({[h]} ∪ seen) l'
  end.

(** [_apply_imported_palette] *)
Definition apply_imported_palette (items : list string) : M unit :=
  modify (set_palette_hexes (ordered_go ∅ (Py.upper <$> items))).

(** ** Export and import *)

Abbreviation ConfigParser := (gmap string (gmap string string)).

(** [f"row{i}"], [f"row{i}_s"], [f"row{i}_v"] *)
Definition row_key (i : Z) : string := "row" +:+ Py.str i.
Definition row_s_key (i : Z) : string := "row" +:+ Py.str i +:+ "_s".
Definition row_v_key (i : Z) : string := "row" +:+ Py.str i +:+ "_v".

(** The [inputs] section of [_export_ini]; the rows are numbered from
    [i]. *)
Fixpoint export_rows (i : Z) (rs : list (Z * Z)) (inputs : gmap string string)
    : gmap string string :=
  match rs with
  | [] => inputs
  | (s, v) :: rs' =>
      export_rows (i + 1) rs'
        (<[row_v_key i := Py.str v]> (<[row_s_key i := Py.str s]> inputs))
  end.

Definition export_inputs (a : PaletteApp) : gmap string string :=
  export_rows 2 (rows a)
    (<["rows_count" := Py.str (Z.of_nat (length (rows a)))]>
       (<["h" := Py.str (h_var a)]> (<["cols" := Py.str (cols a)]> ∅))).

(** [self.cell_hex[r][c].upper()] *)
Definition cell_upper (m : list (list (option string))) (r c : nat)
    : Py.exn + string :=
  match m !! r with
  | None => inl Py.IndexError
  | Some row =>
      match row !! c with
      | None => inl Py.IndexError
      | Some None => inl Py.AttributeError
      | Some (Some x) => inr (Py.upper x)
      end
  end.

(** The [hex] section: one joined line per matrix row. *)
Fixpoint export_hex (m : list (list (option string))) (ncols : Z)
    (rs : list nat) (hex_section : gmap string string)
    : Py.exn + gmap string string :=
  match rs with
  | [] => inr hex_section
  | r :: rs' =>
      row_hex ← traverse (cell_upper m r) (range ncols);
      export_hex m ncols rs'
        (<[row_key (Z.of_nat r + 1) := Py.join " " row_hex]> hex_section)
  end.

(** [_export_ini], up to the write of the file. *)
Definition export_ini (a : PaletteApp) : Py.exn + ConfigParser :=
  let meta : gmap string string :=
    <["version" := APP_VERSION]> (<["app" := "hsv_palette_designer"]> ∅) in
  let inputs := export_inputs a in
  m ← from_option inr (inl Py.AttributeError) (cell_hex a);
  hex_section ← export_hex m (cols a) (seq 0 (S (length (rows a)))) ∅;
  let palette : gmap string string :=
    {["colors" := Py.join " " (Py.upper <$> palette_hexes a)]} in
  mret (<["palette" := palette]> (<["hex" := hex_section]>
         (<["inputs" := inputs]> (<["meta" := meta]> ∅)))).

(** The ways [_import_ini] turns a document down, one per message box. *)
Inductive import_error :=
  | MissingSections
  | NotIntegers
  | OutOfRange
  | MissingSV (i : Z)
  | BadSV (i : Z)
  | MissingHexRow (key : string)
  | BadHexRow (key : string)
  | BadPalette.

Inductive import_result :=
  | Imported
  | Rejected (e : import_error).

(** [range(a, a + n)] *)
Definition range_from (a : Z) (n : Z) : list Z :=
  (fun k : nat => a + Z.of_nat k) <$> seq 0 (Z.to_nat n).

(** The S/V loop of [_import_ini] over the row numbers [idx]. *)
Fixpoint read_sv (inputs : gmap string string) (idx : list Z)
    : import_error + list (Z * Z) :=
  match idx with
  | [] => inr []
  | i :: idx' =>
      match (s ← Py.int_of_opt (inputs !! row_s_key i);
             v ← Py.int_of_opt (inputs !! row_v_key i);
             mret (s, v)) with
      | inl _ => inl (MissingSV i)
      | inr (s, v) =>
          if (0 <=? s) && (s <=? 100) && (0 <=? v) && (v <=? 100)
          then sv_vals ← read_sv inputs idx'; mret ((s, v) :: sv_vals)
          else inl (BadSV i)
      end
  end.

(** [[x.strip().upper() for x in text.split() if x.strip()]] *)
Definition hex_items (text : string) : list string :=
  (fun x => Py.upper (Py.strip x))
    <$> List.filter (fun x => Py.truthy (Py.strip x)) (Py.split text).

(** [len(x) != 7 or not x.startswith("#")] *)
Definition bad_token (x : string) : bool :=
  negb (Py.len x =? 7) || negb (Py.startswith_hash x).

(** The shape check of the [hex] section over the row numbers [rs]. *)
Fixpoint check_hex (hex_sec : gmap string string) (cols : Z) (rs : list Z)
    : option import_error :=
  match rs with
  | [] => None
  | r :: rs' =>
      let key := row_key r in
      match hex_sec !! key with
      | None => Some (MissingHexRow key)
      | Some line =>
          let arr := hex_items line in
          if negb (Z.of_nat (length arr) =? cols) || existsb bad_token arr
          then Some (BadHexRow key)
          else check_hex hex_sec cols rs'
      end
  end.

(** The palette block that ends [_import_ini]. *)
Definition import_palette (cfg : ConfigParser) : M import_result :=
  match cfg !! "palette" with
  | Some palette =>
      let raw := Py.strip (default EmptyString (palette !! "colors")) in
      if Py.truthy raw then
        let items := hex_items raw in
        if existsb bad_token items then mret (Rejected BadPalette)
        else apply_imported_palette items;; mret Imported
      else apply_imported_palette [];; mret Imported
  | None => mret Imported
  end.

(** [_import_ini], from the parsed document on. *)
Definition import_ini (cfg : ConfigParser) : M import_result :=
  match cfg !! "inputs", cfg !! "hex" with
  | Some inputs, Some hex_sec =>
      match (c ← Py.int_of_opt (inputs !! "cols");
             h ← Py.int_of_opt (inputs !! "h");
             n ← Py.int_of_opt (inputs !! "rows_count");
             mret (c, h, n)) with
      | inl _ => mret (Rejected NotIntegers)
      | inr (c, h, rows_count) =>
          if negb ((MIN_COLS <=? c) && (c <=? MAX_COLS))
             || negb ((0 <=? h) && (h <=? 359))
             || (rows_count <? 0) || (50 <? rows_count)
          then mret (Rejected OutOfRange)
          else
            match read_sv inputs (range_from 2 rows_count) with
            | inl e => mret (Rejected e)
            | inr sv_vals =>
                match check_hex hex_sec c (range_from 1 (1 + rows_count)) with
                | Some e => mret (Rejected e)
                | None =>
                    modify (set_rows []);;
                    modify (set_cols c);;
                    modify (set_h_var h);;
                    for_each sv_vals (fun '(s, v) => add_row s v);;
                    build_grid;;
                    update_grid;;
                    import_palette cfg
                end
            end
      end
  | _, _ => mret (Rejected MissingSections)
  end.

(** ** Vocabulary of the statements *)

(** Two states agree on everything but the rendered matrix. *)
Definition same_inputs (a b : PaletteApp) : Prop :=
  cols a = cols b /\ h_var a = h_var b /\ rows a = rows b /\
  palette_hexes a = palette_hexes b /\ palette_hex_set a = palette_hex_set b.

(** A method that touches [cell_hex] at most. *)
Definition paints_only {A} (m : M A) : Prop :=
  forall st, same_inputs st (snd (m st)).

(** Where [_drag_end] puts the row: the insert index, less one when the
    row came from above it. *)
Definition resolved_index (start insert_index : nat) : nat :=
  if bool_decide (start < insert_index)%nat then pred insert_index
  else insert_index.

(** [n] is an integer nearest to [p / q], for [q > 0]: no integer [m] is
    closer to the quotient. *)
Definition nearest_int (p q n : Z) : Prop :=
  forall m : Z, Z.abs (q * n - p) <= Z.abs (q * m - p).

(** A hexadecimal digit, and a string of exactly six of them after an
    optional leading ['#']. *)
Definition is_hex_digit (c : ascii) : bool :=
  match Py.digit_in 16 c with Some _ => true | None => false end.

Fixpoint all_hex (s : string) : bool :=
  match s with
  | EmptyString => true
  | String c r => is_hex_digit c && all_hex r
  end.

Definition hex6 (s : string) : bool :=
  (String.length s =? 6)%nat && all_hex s.


(** A document from its sections, each a list of options. *)
Definition make_doc (l : list (string * list (string * string))) : ConfigParser :=
  list_to_map (prod_map id list_to_map <$> l).

(** The state in which [_import_ini] calls [_update_grid]: the imported
    columns, hue and rows, a blank grid of their shape, the favorites as
    they were. *)
Definition import_applied (c h : Z) (sv_vals : list (Z * Z)) (st : PaletteApp)
    : PaletteApp :=
  mkApp c h sv_vals
    (Some (replicate (S (length sv_vals)) (replicate (Z.to_nat c) None)))
    (palette_hexes st) (palette_hex_set st).

(** What [_import_ini] checks before it changes anything. *)
Definition import_validated (cfg : ConfigParser) (c h : Z)
    (sv_vals : list (Z * Z)) : Prop :=
  exists inputs hex_sec,
    cfg !! "inputs" = Some inputs /\ cfg !! "hex" = Some hex_sec /\
    Py.int_of_opt (inputs !! "cols") = inr c /\
    Py.int_of_opt (inputs !! "h") = inr h /\
    Py.int_of_opt (inputs !! "rows_count") = inr (Z.of_nat (length sv_vals)) /\
    MIN_COLS <= c <= MAX_COLS /\ 0 <= h <= 359 /\
    (length sv_vals <= 50)%nat /\
    read_sv inputs (range_from 2 (Z.of_nat (length sv_vals))) = inr sv_vals /\
    check_hex hex_sec c (range_from 1 (1 + Z.of_nat (length sv_vals))) = None.

(** The spec's [computeMatrix] (section 4.3), in its words: column [c]
    has hue [(baseHueDeg + c * 360/columns) mod 360] in floating-point
    degrees (the product written as the code has it, [360/columns] first);
    row 0 is [hsvToHex(hue[c], 100, 100)], row [r >= 1] is
    [hsvToHex(hue[c], rows[r-1].saturation, rows[r-1].value)]. *)
Definition column_hue (columns base : Z) (c : nat) : Py.exn + float :=
  cf ← Py.float_of_int columns;
  if (cf =? 0)%float then inl Py.ZeroDivisionError
  else
    fc ← Py.float_of_int (Z.of_nat c);
    bf ← Py.float_of_int base;
    mret (Py.fmod360 (bf + 360 / cf * fc)).

Definition computeMatrix (columns base : Z) (rs : list (Z * Z))
    : Py.exn + list (list string) :=
  traverse (fun '(s, v) =>
    traverse (fun c =>
      hue ← column_hue columns base c;
      hsv_to_hex (Py.Float hue) (Py.Int s) (Py.Int v)) (range columns))
    ((100, 100) :: rs).

(** One cell and one row of [_update_grid], given the list of hues. *)
Definition cell_of (hues : list float) (s v : Z) (c : nat) : Py.exn + string :=
  hue ← from_option inr (inl Py.IndexError) (hues !! c);
  hsv_to_hex (Py.Float hue) (Py.Int s) (Py.Int v).

Definition row_of (hues : list float) (n : nat) (sv : Z * Z) : Py.exn + list string :=
  traverse (cell_of hues sv.1 sv.2) (seq 0 n).

(** A matrix of strings as [cell_hex] stores it. *)
Definition filled (m : list (list string)) : list (list (option string)) :=
  (fun row : list string => Some <$> row) <$> m.

(** A colour as the document holds it: ['#'] and six hexadecimal digits. *)
Definition is_color (x : string) : bool :=
  match x with
  | String c r => bool_decide (c = "#"%char) && hex6 r
  | EmptyString => false
  end.

(** No blank character anywhere, and at least one character. *)
Fixpoint no_space (s : string) : bool :=
  match s with
  | EmptyString => true
  | String c r => negb (Py.isspace c) && no_space r
  end.

Definition is_token (s : string) : bool := Py.truthy s && no_space s.

(** A valid in-memory state: columns in [2,360], hue in [0,359], at most
    50 rows with S and V in [0,100], favorites that are distinct
    upper-case [#RRGGBB] strings, and [cell_hex] holding the matrix of
    these inputs, each cell a [#rrggbb] string. *)
Definition valid_state (a : PaletteApp) : Prop :=
  MIN_COLS <= cols a <= MAX_COLS /\ 0 <= h_var a <= 359 /\
  (length (rows a) <= 50)%nat /\
  Forall (fun sv : Z * Z => 0 <= sv.1 <= 100 /\ 0 <= sv.2 <= 100) (rows a) /\
  NoDup (palette_hexes a) /\
  Forall (fun x => is_color x = true /\ Py.upper x = x) (palette_hexes a) /\
  exists xss,
    computeMatrix (cols a) (h_var a) (rows a) = inr xss /\
    cell_hex a = Some (filled xss) /\
    Forall (Forall (fun x => is_color x = true)) xss.

(** A lower-case hexadecimal digit; a channel written by [format_02x] as
    two of them that read back as the channel. *)
Definition is_lower_hex (c : ascii) : bool :=
  match Py.digit_in 16 c with
  | Some _ => negb ((65 <=? Py.code c) && (Py.code c <=? 70))
  | None => false
  end.

Fixpoint all_lower_hex (s : string) : bool :=
  match s with
  | EmptyString => true
  | String c r => is_lower_hex c && all_lower_hex r
  end.

Definition byte_ok (r : Z) : bool :=
  match Py.format_02x r with
  | String a (String b EmptyString) =>
      is_lower_hex a && is_lower_hex b &&
      bool_decide (Py.int_of 16 (String a (String b EmptyString)) = Some r)
  | _ => false
  end.

(** ** Favorites as a sequence of operations *)

(** The favorites are upper-case and no colour is listed twice. *)
Definition fav_unique (a : PaletteApp) : Prop :=
  NoDup (palette_hexes a) /\
  Forall (fun x => Py.upper x = x) (palette_hexes a).

(** [palette_hex_set] holds nothing that [palette_hexes] lacks. *)
Definition fav_in_sync (a : PaletteApp) : Prop :=
  forall x, x ∈ palette_hex_set a -> x ∈ palette_hexes a.

Inductive fav_op :=
  | FavAdd (hex : string)
  | FavRemove (hex : string)
  | FavReplaceAll (items : list string).

Definition run_fav_op (op : fav_op) : M unit :=
  match op with
  | FavAdd hex => palette_add_color hex
  | FavRemove hex => palette_remove_ctx hex
  | FavReplaceAll items => apply_imported_palette items
  end.

Definition is_replace_all (op : fav_op) : bool :=
  match op with FavReplaceAll _ => true | _ => false end.

Definition run_fav_ops (ops : list fav_op) (a : PaletteApp) : PaletteApp :=
  foldl (fun st op => snd (run_fav_op op st)) a ops.

(** ** Live input handlers *)

(** [max(lo, min(hi, v))] *)
Definition clamp (lo hi v : Z) : Z := Z.max lo (Z.min hi v).

(** [_on_cols_change]. [typed] is what [int(self.cols_var.get())] gives
    for the text of the spinbox, [None] when it raises.
    [_reset_output_grid_config] only reconfigures widgets. *)
Definition on_cols_change (typed : option Z) : M unit :=
  st ← get;
  let value := default (cols st) typed in
  let value := clamp MIN_COLS MAX_COLS value in
  (if bool_decide (value <> cols st)
   then modify (set_cols value);; build_grid
   else mret tt);;
  update_grid.

(** [_on_h_scale]. [value] is what [float(value)] gives for the string Tk
    passes, [None] when it raises; any exception of the conversion falls
    back to the current hue. *)
Definition on_h_scale (value : option float) : M unit :=
  st ← get;
  let iv :=
    match value with
    | Some f => match Py.round f with inr z => z | inl _ => h_var st end
    | None => h_var st
    end in
  let iv := clamp 0 359 iv in
  modify (set_h_var iv);; update_grid.

(** [_clamp_h]. [typed] is what [self.h_var.get()] gives for the text of
    the hue entry, which is bound to the variable; [None] when it raises.
    Any exception gives 0. *)
Definition clamp_h (typed : option Z) : M unit :=
  let v :=
    match typed with
    | Some z =>
        match (f ← Py.float_of_int z; Py.trunc f) with
        | inr v => v
        | inl _ => 0
        end
    | None => 0
    end in
  let v := clamp 0 359 v in
  modify (set_h_var v);; update_grid.

(** The two [HSVVar] controls of a row. [_add_row] creates each with
    [from_=0, to=100] and [command=self._update_grid]. *)
Inductive channel := ChanS | ChanV.

Definition chan_get (ch : channel) (sv : Z * Z) : Z :=
  match ch with ChanS => sv.1 | ChanV => sv.2 end.

Definition chan_set (ch : channel) (x : Z) (sv : Z * Z) : Z * Z :=
  match ch with ChanS => (x, sv.2) | ChanV => (sv.1, x) end.

(** [HSVVar._on_scale] of control [ch] of row [i]. [value] is what
    [float(value)] gives, [None] when it raises [ValueError]. The value is
    stored as it is rounded, without a clamp.  A row that is not there has
    no control to fire. *)
Definition hsvvar_on_scale (i : nat) (ch : channel) (value : option float)
    : M unit :=
  st ← get;
  match rows st !! i with
  | None => mret tt
  | Some sv =>
      f ← lift (from_option inr (inl Py.ValueError) value);
      ivalue ← lift (Py.round f);
      modify (set_rows (<[i := chan_set ch ivalue sv]> (rows st)));;
      update_grid
  end.

(** [HSVVar._on_entry] of control [ch] of row [i]. [text] is what
    [float(text)] gives for the stripped entry text, [None] when it raises
    [ValueError]. Only [ValueError] falls back to the current value: the
    [OverflowError] of [int] on an infinity propagates. *)
Definition hsvvar_on_entry (i : nat) (ch : channel) (text : option float)
    : M unit :=
  st ← get;
  match rows st !! i with
  | None => mret tt
  | Some sv =>
      v ← lift (match text with
                | None => inr (chan_get ch sv)
                | Some f =>
                    match Py.trunc f with
                    | inl Py.ValueError => inr (chan_get ch sv)
                    | r => r
                    end
                end);
      let v := clamp 0 100 v in
      modify (set_rows (<[i := chan_set ch v sv]> (rows st)));;
      update_grid
  end.



Definition blank : PaletteApp := mkApp 7 25 [] None [] ∅.

(** What the user and Tk can make the application do. *)
Inductive event :=
  | AddRowClick
  | RemoveRow (idx : nat)
  | DragEnd (start insert_index : nat)
  | ColsChange (typed : option Z)
  | HueScale (value : option float)
  | HueEntry (typed : option Z)
  | RowScale (i : nat) (ch : channel) (value : option float)
  | RowEntry (i : nat) (ch : channel) (text : option float)
  | ImportIni (cfg : ConfigParser)
  | PaletteAdd (hex : string)
  | PaletteRemove (hex : string).

Definition handle (ev : event) : M unit :=
  match ev with
  | AddRowClick => on_add_row_click
  | RemoveRow idx => remove_row idx
  | DragEnd start insert_index => drag_end start insert_index
  | ColsChange typed => on_cols_change typed
  | HueScale value => on_h_scale value
  | HueEntry typed => clamp_h typed
  | RowScale i ch value => hsvvar_on_scale i ch value
  | RowEntry i ch text => hsvvar_on_entry i ch text
  | ImportIni cfg => import_ini cfg;; mret tt
  | PaletteAdd hex => palette_add_color hex
  | PaletteRemove hex => palette_remove_ctx hex
  end.




Definition touches_favorites (ev : event) : bool :=
  match ev with
  | ImportIni _ | PaletteAdd _ | PaletteRemove _ => true
  | _ => false
  end.

(** ** Drag: where the pointer resolves to *)

(** The loop of [_row_index_from_y] from slot [i] on. [y_local] is the
    pointer's y within the input panel, each frame the [winfo_y()] and
    [winfo_height()] of a row's frame, in row order. [(y0 + y1) / 2] is
    exact in binary64 for pixel coordinates, so [y_local < (y0 + y1) / 2]
    is the comparison of the doubled integer. Past the last slot the
    result is [len(self.rows)]. *)
Fixpoint row_index_from_y_go (y_local : Z) (i : nat) (frames : list (Z * Z))
    : nat :=
  match frames with
  | [] => i
  | (y, h) :: frames' =>
      let y0 := y in
      let y1 := y + h in
      if 2 * y_local <? y0 + y1 then i
      else row_index_from_y_go y_local (S i) frames'
  end.

Definition row_index_from_y (y_local : Z) (frames : list (Z * Z)) : nat :=
  row_index_from_y_go y_local 0 frames.

(** [_drag_end] with the insert index it computes itself. *)
Definition drag_release (start : nat) (y_local : Z) (frames : list (Z * Z))
    : M unit :=
  drag_end start (row_index_from_y y_local frames).

(** ** Layout of the favorites window and of the exported PNG *)

(** Set once by [__init__]. *)
Definition palette_max_cols : Z := 8.
Definition palette_min_tile : Z := 92.

(** [_palette_compute_cols]; [width] is
    [self.palette_frame.winfo_width()]. *)
Definition palette_compute_cols (width count : Z) : Z :=
  let tile_budget := Z.max 60 palette_min_tile in
  let w := Z.max 1 (if width =? 0 then 1 else width) in
  let est_cols := Z.max 1 (w / tile_budget) in
  let cols := Z.min (Z.min palette_max_cols count) est_cols in
  Z.max 1 (Z.min cols count).

(** The grid cell [(r, c)] that [_rebuild_palette_grid] gives favorite
    [idx], and the number of grid rows it stretches. *)
Definition palette_cell (cols idx : Z) : Z * Z := (idx / cols, idx mod cols).

Definition palette_grid_rows (cols count : Z) : Z := (count + cols - 1) / cols.

(** [_export_png]: the size of the image and the rectangle
    [[x0, y0, x1, y1]] of cell [(r, c)], for the cell size measured. *)
Definition png_gap : Z := 8.

Definition png_size (ncols total_rows cell_w cell_h : Z) : Z * Z :=
  (ncols * (cell_w + png_gap) + png_gap,
   total_rows * (cell_h + png_gap) + png_gap).

Definition png_cell (cell_w cell_h r c : Z) : Z * Z * Z * Z :=
  let x0 := png_gap + c * (cell_w + png_gap) in
  let y0 := png_gap + r * (cell_h + png_gap) in
  let x1 := x0 + cell_w in
  let y1 := y0 + cell_h in
  (x0, y0, x1, y1).

(** Two rectangles with inclusive corners, as Pillow draws them, share no
    pixel. *)
Definition rect_disjoint (a b : Z * Z * Z * Z) : Prop :=
  let '(ax0, ay0, ax1, ay1) := a in
  let '(bx0, by0, bx1, by1) := b in
  ax1 < bx0 \/ bx1 < ax0 \/ ay1 < by0 \/ by1 < ay0.
(** * Properties *)

Example split_demo : Py.split "  #AA  #bb " = ["#AA"; "#bb"].
Proof. reflexivity. Qed.

Example int_demo :
  Py.int_of 10 " 0012 " = Some 12 /\ Py.int_of 10 "-7" = Some (-7) /\
  Py.int_of 10 "1_000" = Some 1000 /\ Py.int_of 10 "1__0" = None /\
  Py.int_of 10 "" = None /\ Py.int_of 10 "12a" = None /\
  Py.int_of 16 "fF" = Some 255 /\ Py.int_of 16 "0x" = None /\
  Py.int_of 16 "-f" = Some (-15) /\ Py.int_of 16 "g0" = None.
Proof. repeat split; reflexivity. Qed.

Example str_demo :
  Py.str 0 = "0" /\ Py.str 360 = "360" /\ Py.str (-12) = "-12" /\
  Py.format_02x 10 = "0a" /\ Py.format_02x 255 = "ff" /\
  Py.format_02x 256 = "100" /\ Py.format_02x (-1) = "-1".
Proof. repeat split; reflexivity. Qed.

Example hsv_demo :
  hsv_to_hex (Py.Int 0) (Py.Int 100) (Py.Int 100) = inr "#ff0000" /\
  hsv_to_hex (Py.Int 120) (Py.Int 100) (Py.Int 100) = inr "#00ff00" /\
  hsv_to_hex (Py.Int 240) (Py.Int 100) (Py.Int 100) = inr "#0000ff" /\
  hsv_to_hex (Py.Int 200) (Py.Int 0) (Py.Int 100) = inr "#ffffff" /\
  hsv_to_hex (Py.Int 10) (Py.Int 0) (Py.Int 100) = inr "#ffffff" /\
  hsv_to_hex (Py.Float 25.5) (Py.Int 85) (Py.Int 85) = inr "#d96f21" /\
  hsv_to_hex (Py.Float (-30)) (Py.Int 50) (Py.Int 50) = inr "#804060" /\
  hsv_to_hex (Py.Float nan) (Py.Int 50) (Py.Int 50) = inl Py.ValueError /\
  hsv_to_hex (Py.Int 0) (Py.Int (10 ^ 400)) (Py.Int 50) = inl Py.OverflowError /\
  is_light "#ffffff" = inr true /\ is_light "#000000" = inr false.
Proof. vm_compute. repeat split; reflexivity. Qed.

(** ** Methods that only repaint *)

Lemma same_inputs_refl a : same_inputs a a.
Proof. by repeat split. Qed.

Lemma same_inputs_trans a b c :
  same_inputs a b -> same_inputs b c -> same_inputs a c.
Proof.
  intros (? & ? & ? & ? & ?) (? & ? & ? & ? & ?).
  repeat split; congruence.
Qed.

Lemma paints_only_ret {A} (x : A) : paints_only (mret x).
Proof. intros st. apply same_inputs_refl. Qed.

Lemma paints_only_lift {A} (r : Py.exn + A) : paints_only (lift r).
Proof. intros st. apply same_inputs_refl. Qed.

Lemma paints_only_raise {A} e : paints_only (@raise A e).
Proof. intros st. apply same_inputs_refl. Qed.

Lemma paints_only_get : paints_only get.
Proof. intros st. apply same_inputs_refl. Qed.

Lemma paints_only_bind {A B} (m : M A) (f : A -> M B) :
  paints_only m -> (forall x, paints_only (f x)) -> paints_only (m ≫= f).
Proof.
  intros Hm Hf st. unfold mbind, M_bind.
  specialize (Hm st). destruct (m st) as [[e|x] st1]; simpl in *; [done|].
  eapply same_inputs_trans; [exact Hm | apply Hf].
Qed.

Lemma paints_only_for_each {A} (l : list A) (body : A -> M unit) :
  (forall x, paints_only (body x)) -> paints_only (for_each l body).
Proof.
  intros Hb. induction l as [|x l IH]; simpl.
  - apply paints_only_ret.
  - apply paints_only_bind; [apply Hb | intros _; exact IH].
Qed.

Lemma paints_only_set_cell r c v : paints_only (set_cell r c v).
Proof.
  intros st. unfold set_cell.
  destruct (cell_hex st) as [m|]; [|apply same_inputs_refl].
  destruct (m !! r) as [row|]; [|apply same_inputs_refl].
  case_bool_decide; simpl; by repeat split.
Qed.

Lemma paints_only_paint_row r hues s v : paints_only (paint_row r hues s v).
Proof.
  unfold paint_row. apply paints_only_bind; [apply paints_only_get|].
  intros st. apply paints_only_for_each. intros c.
  apply paints_only_bind; [apply paints_only_lift|]. intros hue.
  apply paints_only_bind; [apply paints_only_lift|]. intros hex.
  apply paints_only_set_cell.
Qed.

Lemma paints_only_update_grid : paints_only update_grid.
Proof.
  unfold update_grid.
  apply paints_only_bind; [apply paints_only_get|]. intros st.
  destruct (cell_hex st); [|apply paints_only_ret].
  apply paints_only_bind; [apply paints_only_lift|]. intros hues.
  apply paints_only_bind; [apply paints_only_paint_row|]. intros _.
  apply paints_only_for_each. intros r.
  apply paints_only_bind; [apply paints_only_get|]. intros st2.
  destruct (rows st2 !! pred r) as [[s v]|];
    [apply paints_only_paint_row | apply paints_only_raise].
Qed.

Lemma paints_only_build_grid : paints_only build_grid.
Proof. intros st. by repeat split. Qed.

Lemma paints_only_rebuild : paints_only (build_grid;; update_grid).
Proof.
  apply paints_only_bind; [apply paints_only_build_grid|].
  intros _. apply paints_only_update_grid.
Qed.

(** ** Row reordering *)

Lemma resolved_index_start start i :
  resolved_index start i = start <-> i = start \/ i = S start.
Proof. unfold resolved_index. case_bool_decide; lia. Qed.

Lemma drag_end_no_move start i st :
  resolved_index start i = start -> drag_end start i st = (inr tt, st).
Proof.
  intros [-> | ->]%resolved_index_start; unfold drag_end.
  - by rewrite bool_decide_eq_true_2.
  - rewrite (bool_decide_eq_true_2 (S start = S start)) by done.
    by rewrite orb_true_r.
Qed.

Lemma drag_end_rows start i st row :
  resolved_index start i <> start ->
  rows st !! start = Some row ->
  rows (snd (drag_end start i st)) =
    list_insert_at (resolved_index start i) row (delete start (rows st)).
Proof.
  intros Hmove Hrow. unfold drag_end.
  rewrite resolved_index_start in Hmove.
  rewrite !bool_decide_eq_false_2 by lia. simpl.
  unfold mbind at 1, M_bind at 1, get. simpl.
  rewrite Hrow. simpl.
  unfold mbind at 1, M_bind at 1, lift. simpl.
  unfold mbind at 1, M_bind at 1, modify at 1. simpl.
  unfold mbind at 1, M_bind at 1, modify at 1. simpl.
  match goal with |- rows (snd (?m ?s)) = _ =>
    destruct (paints_only_rebuild s) as (_ & _ & <- & _) end.
  reflexivity.
Qed.

Lemma list_insert_at_delete {A} (l : list A) start i x :
  l !! start = Some x -> (i <= length (delete start l))%nat ->
  list_insert_at i x (delete start l) ≡ₚ l /\
  list_insert_at i x (delete start l) !! i = Some x /\
  delete i (list_insert_at i x (delete start l)) = delete start l.
Proof.
  intros Hx Hi. unfold list_insert_at.
  set (d := delete start l) in *.
  assert (Hlen : length (take i d) = i) by (rewrite length_take; lia).
  split; [|split].
  - rewrite <- Permutation_middle, take_drop.
    symmetry. by apply delete_Permutation.
  - rewrite lookup_app_r by lia. by rewrite Hlen, Nat.sub_diag.
  - rewrite <- (take_drop i d) at 3.
    rewrite <- Hlen at 1. by rewrite delete_middle.
Qed.

(** C9. Row reordering is a pure permutation: for an in-range start row
    and insert index, [_drag_end] leaves the multiset of (S, V) pairs
    untouched; the row that was picked up lands at the resolved index and
    the other rows keep their order; and a move that resolves to the
    row's own position changes nothing at all. *)
Theorem drag_end_permutation (st : PaletteApp) (start insert_index : nat) :
  (start < length (rows st))%nat ->
  (insert_index <= length (rows st))%nat ->
  let st' := snd (drag_end start insert_index st) in
  let j := resolved_index start insert_index in
  rows st' ≡ₚ rows st /\
  rows st' !! j = rows st !! start /\
  delete j (rows st') = delete start (rows st) /\
  (j = start -> drag_end start insert_index st = (inr tt, st)).
Proof.
  intros Hs Hi st' j.
  destruct (lookup_lt_is_Some_2 _ _ Hs) as [row Hrow].
  assert (Hnoop : j = start -> drag_end start insert_index st = (inr tt, st))
    by apply drag_end_no_move.
  destruct (decide (j = start)) as [Heq|Hne].
  - subst st'. rewrite (Hnoop Heq). simpl. by rewrite Heq.
  - subst st'. rewrite (drag_end_rows _ _ _ row) by done.
    assert (Hj : (j <= length (delete start (rows st)))%nat).
    { rewrite length_delete by eauto. subst j. unfold resolved_index in *.
      case_bool_decide; lia. }
    destruct (list_insert_at_delete (rows st) start j row Hrow Hj)
      as (HP & Hat & Hdel).
    fold j. by rewrite Hrow.
Qed.

Lemma drag_end_permutation_witness :
  let st := mkApp 4 0 [(10, 20); (30, 40); (50, 60)] None [] ∅ in
  rows (snd (drag_end 0 3 st)) ≡ₚ rows st /\
  rows (snd (drag_end 0 3 st)) !! 2%nat = Some (10, 20).
Proof.
  intros st.
  destruct (drag_end_permutation st 0 3) as (HP & Hat & _); [simpl; lia ..|].
  split; [exact HP | exact Hat].
Defined.

(** ** The default of a new row *)

Lemma on_add_row_click_rows st :
  rows (snd (on_add_row_click st)) =
    rows st ++ [(add_row_default (rows st), add_row_default (rows st))].
Proof.
  unfold on_add_row_click.
  unfold mbind at 1, M_bind at 1, get. simpl.
  unfold mbind at 1, M_bind at 1, add_row, modify. simpl.
  match goal with |- rows (snd (?m ?s)) = _ =>
    destruct (paints_only_rebuild s) as (_ & _ & <- & _) end.
  reflexivity.
Qed.

Lemma add_row_default_in_range rs s v :
  last rs = Some (s, v) -> 0 <= s <= 100 -> 0 <= v <= 100 ->
  add_row_default rs = (s + v) / 2.
Proof.
  intros Hl Hs Hv. unfold add_row_default. rewrite Hl.
  rewrite Z.quot_div_nonneg by lia.
  assert (0 <= (s + v) / 2 <= 100).
  { split; [apply Z.div_pos; lia | apply Z.div_le_upper_bound; lia]. }
  lia.
Qed.

Lemma quot2_nearest a : nearest_int a 2 (Z.quot a 2).
Proof.
  intros m.
  pose proof (Z.quot_rem' a 2) as Hqr.
  pose proof (Z.rem_bound_abs a 2 ltac:(lia)) as Hr.
  lia.
Qed.

(** C5. The row added by the [+] button takes as both S and V the
    average of the last row's S and V rounded to a nearest integer and
    clamped to [0,100]; with no row yet it takes 70/70.  The integer is
    the one [int] gives, so an average that ends in a half goes toward
    zero. *)
Theorem on_add_row_click_default (st : PaletteApp) :
  match last (rows st) with
  | Some (last_s, last_v) =>
      exists n,
        nearest_int (last_s + last_v) 2 n /\
        n = Z.quot (last_s + last_v) 2 /\
        let d := Z.max 0 (Z.min 100 n) in
        rows (snd (on_add_row_click st)) = rows st ++ [(d, d)]
  | None =>
      rows st = [] /\ rows (snd (on_add_row_click st)) = [(70, 70)]
  end.
Proof.
  rewrite on_add_row_click_rows. unfold add_row_default.
  destruct (last (rows st)) as [[last_s last_v]|] eqn:Hlast.
  - exists (Z.quot (last_s + last_v) 2).
    split; [apply quot2_nearest|]. by split.
  - apply last_None in Hlast. rewrite Hlast. by split.
Qed.

(** After the row (71, 72), whose average is 71.5, the new row is
    (71, 71); after (70, 71) it is (70, 70); a last row out of range is
    clamped. *)
Example on_add_row_click_halves :
  rows (snd (on_add_row_click (mkApp 3 0 [(71, 72)] None [] ∅)))
    = [(71, 72); (71, 71)] /\
  rows (snd (on_add_row_click (mkApp 3 0 [(85, 85); (70, 71)] None [] ∅)))
    = [(85, 85); (70, 71); (70, 70)] /\
  rows (snd (on_add_row_click (mkApp 3 0 [(150, 151)] None [] ∅)))
    = [(150, 151); (100, 100)].
Proof. vm_compute. repeat split; reflexivity. Qed.

(** ** Favorites *)

Lemma upper_char_idem c : Py.upper_char (Py.upper_char c) = Py.upper_char c.
Proof. by destruct c as [[] [] [] [] [] [] [] []]. Qed.

Lemma upper_idem s : Py.upper (Py.upper s) = Py.upper s.
Proof. induction s as [|c s IH]; simpl; [done|]. by rewrite upper_char_idem, IH. Qed.

(** While [palette_hex_set] holds nothing that [palette_hexes] lacks,
    [_palette_add_color] appends the upper-cased colour unless the list
    has it already, whatever the case. *)
Lemma palette_add_color_in_sync (hex : string) (st : PaletteApp) :
  (forall x, x ∈ palette_hex_set st -> x ∈ palette_hexes st) ->
  Py.truthy hex = true ->
  palette_add_color hex st =
    (inr tt,
     if bool_decide (Py.upper hex ∈ Py.upper <$> palette_hexes st) then st
     else set_palette_hex_set ({[Py.upper hex]} ∪ palette_hex_set st)
            (set_palette_hexes (palette_hexes st ++ [Py.upper hex]) st)).
Proof.
  intros Hsync Hne. unfold palette_add_color.
  unfold mbind at 1, M_bind at 1, get. simpl. rewrite Hne. simpl.
  case_bool_decide as Hin; [done|].
  rewrite bool_decide_eq_false_2; [done|].
  intros Hset. apply Hin. apply Hsync in Hset.
  apply list_elem_of_fmap. exists (Py.upper hex).
  by rewrite upper_idem.
Qed.

Example palette_add_case_insensitive :
  let st0 := mkApp 7 25 [] None [] ∅ in
  let st1 := snd (palette_add_color "#ABCDEF" st0) in
  let st2 := snd (palette_add_color "#abcdef" st1) in
  palette_hexes st1 = ["#ABCDEF"] /\ palette_hexes st2 = ["#ABCDEF"].
Proof. vm_compute. by split. Qed.

(** C7 on the code: once an import has replaced the favorites,
    [palette_hex_set] still holds the old entries, and adding a colour
    that the list no longer has is dropped. Here the colour is added, an
    import with an empty [colors] line clears the list, and the same
    colour is added again: the list stays empty. *)
Lemma palette_add_after_import_dropped :
  let st0 := mkApp 7 25 [] None [] ∅ in
  let st1 := snd (palette_add_color "#ABCDEF" st0) in
  let st2 := snd (apply_imported_palette [] st1) in
  let st3 := snd (palette_add_color "#ABCDEF" st2) in
  palette_hexes st1 = ["#ABCDEF"] /\
  palette_hexes st2 = [] /\
  palette_add_color "#ABCDEF" st2 = (inr tt, st2) /\
  palette_hexes st3 = [].
Proof. vm_compute. by repeat split. Qed.

(** ** [hex_to_rgb_tuple] *)

Lemma hex_digit_cases c :
  is_hex_digit c = true ->
  exists d, Py.digit_in 16 c = Some d /\ 0 <= d <= 15 /\
    Py.isspace c = false /\ c <> "#"%char /\ c <> "_"%char /\
    c <> "+"%char /\ c <> "-"%char /\ c <> "x"%char /\ c <> "X"%char.
Proof.
  destruct c as [[] [] [] [] [] [] [] []]; intros H; try discriminate H;
    (eexists; split; [vm_compute; reflexivity|]; split; [lia|]; by repeat split).
Qed.

Lemma int_of_hex_pair a b :
  is_hex_digit a = true -> is_hex_digit b = true ->
  exists z, Py.int_of 16 (String a (String b EmptyString)) = Some z /\ 0 <= z <= 255.
Proof.
  intros (da & Ha & Hra & Hsa & Hha & Hua & Hpa & Hma & _)%hex_digit_cases
         (db & Hb & Hrb & Hsb & Hhb & Hub & Hpb & Hmb & Hxb & HXb)%hex_digit_cases.
  exists (da * 16 + db). split; [|lia].
  unfold Py.int_of. simpl. rewrite Hsa. unfold Py.skip_sign.
  destruct (ascii_dec a "+"); [done|]. destruct (ascii_dec a "-"); [done|].
  unfold Py.skip_prefix.
  rewrite (bool_decide_eq_false_2 (b = "x"%char)) by done.
  rewrite (bool_decide_eq_false_2 (b = "X"%char)) by done.
  rewrite andb_false_r.
  destruct (ascii_dec a "_"); [done|]. simpl.
  destruct (ascii_dec a "_"); [done|]. rewrite Ha.
  destruct (ascii_dec b "_"); [done|]. rewrite Hb. reflexivity.
Qed.


Lemma lstrip_hash_idem s : Py.lstrip_hash (Py.lstrip_hash s) = Py.lstrip_hash s.
Proof.
  induction s as [|c s IH]; simpl; [done|].
  destruct (ascii_dec c "#") as [->|Hc]; [done|].
  simpl. by destruct (ascii_dec c "#").
Qed.






(** ** Import: the shape of [_import_ini] *)

Lemma for_each_add_row sv st :
  for_each sv (fun '(s, v) => add_row s v) st = (inr tt, set_rows (rows st ++ sv) st).
Proof.
  revert st. induction sv as [|[s v] sv IH]; intros st; simpl.
  - rewrite app_nil_r. by destruct st.
  - unfold mbind, M_bind, add_row, modify. simpl.
    rewrite IH. simpl. by rewrite <- app_assoc.
Qed.

Lemma read_sv_length inputs idx sv :
  read_sv inputs idx = inr sv -> length sv = length idx.
Proof.
  revert sv. induction idx as [|i idx IH]; intros sv; simpl.
  - by intros [= <-].
  - destruct (_ ≫= _) as [e|[s v]]; [done|].
    destruct (_ && _); [|done].
    destruct (read_sv inputs idx) as [e|sv']; [done|].
    intros [= <-]. simpl. f_equal. by apply IH.
Qed.

Lemma length_range_from a n : length (range_from a n) = Z.to_nat n.
Proof. unfold range_from. by rewrite length_fmap, length_seq. Qed.

(** [_import_ini] either turns the document down before it has changed
    anything, or has passed every check on [inputs] and [hex] and goes
    on, from the applied state, with the repaint and the palette block. *)
Lemma import_ini_cases cfg st :
  (exists e, import_ini cfg st = (inr (Rejected e), st) /\ e <> BadPalette) \/
  (exists c h sv_vals,
     import_validated cfg c h sv_vals /\
     import_ini cfg st =
       (update_grid;; import_palette cfg) (import_applied c h sv_vals st)).
Proof.
  unfold import_ini.
  destruct (cfg !! "inputs") as [inputs|] eqn:Hin; [|left; by eexists].
  destruct (cfg !! "hex") as [hex_sec|] eqn:Hhex; [|left; by eexists].
  destruct (Py.int_of_opt (inputs !! "cols")) as [?|c] eqn:Hc;
    [left; by eexists|].
  destruct (Py.int_of_opt (inputs !! "h")) as [?|h] eqn:Hh;
    [left; by eexists|].
  destruct (Py.int_of_opt (inputs !! "rows_count")) as [?|n] eqn:Hn;
    [left; by eexists|].
  cbn [mbind Py.sum_bind mret Py.sum_ret].
  destruct (negb _ || _ || _ || _) eqn:Hrange; [left; by eexists|].
  apply orb_false_iff in Hrange as [Hrange Hn50].
  apply orb_false_iff in Hrange as [Hrange Hn0].
  apply orb_false_iff in Hrange as [Hcr Hhr].
  apply negb_false_iff, andb_true_iff in Hcr as [?%Z.leb_le ?%Z.leb_le].
  apply negb_false_iff, andb_true_iff in Hhr as [?%Z.leb_le ?%Z.leb_le].
  apply Z.ltb_ge in Hn50, Hn0.
  destruct (read_sv inputs (range_from 2 n)) as [e|sv] eqn:Hsv.
  { left. exists e. split; [done|].
    clear -Hsv. revert e Hsv. generalize (range_from 2 n) as idx.
    induction idx as [|i idx IH]; intros e; simpl; [done|].
    destruct (_ ≫= _) as [?|[s v]]; [by intros [= <-]|].
    destruct (_ && _); [|by intros [= <-]].
    destruct (read_sv inputs idx) as [e'|sv'] eqn:Hrec; [|done].
    intros [= <-]. by eapply IH. }
  assert (Hlen : Z.of_nat (length sv) = n).
  { apply read_sv_length in Hsv. rewrite length_range_from in Hsv. lia. }
  destruct (check_hex hex_sec c (range_from 1 (1 + n))) as [e|] eqn:Hck.
  { left. exists e. split; [done|].
    clear -Hck. revert Hck. generalize (range_from 1 (1 + n)) as rs.
    induction rs as [|r rs IH]; simpl; [done|].
    destruct (hex_sec !! row_key r); [|by intros [= <-]].
    destruct (_ || _); [by intros [= <-]|]. exact IH. }
  right. exists c, h, sv. split.
  - exists inputs, hex_sec. rewrite Hlen.
    repeat split; try done; lia.
  - unfold mbind at 1 2 3 4 5, M_bind at 1 2 3 4 5, modify. cbn [fst snd].
    rewrite for_each_add_row. cbn [fst snd].
    unfold mbind at 2, M_bind at 2, build_grid, modify. cbn [fst snd].
    reflexivity.
Qed.

(** C8. A document whose [cols], [h] and [rows_count] parse but fall
    outside [2,360], [0,359] or [0,50] (so [rows_count = 51], [cols = 1]
    and [cols = 361]) is turned down as out of range, and the state is
    what it was. *)
Theorem import_rejects_out_of_range (cfg : ConfigParser) (st : PaletteApp)
    (inputs hex_sec : gmap string string) (c h n : Z) :
  cfg !! "inputs" = Some inputs -> cfg !! "hex" = Some hex_sec ->
  Py.int_of_opt (inputs !! "cols") = inr c ->
  Py.int_of_opt (inputs !! "h") = inr h ->
  Py.int_of_opt (inputs !! "rows_count") = inr n ->
  c < 2 \/ 360 < c \/ h < 0 \/ 359 < h \/ n < 0 \/ 50 < n ->
  import_ini cfg st = (inr (Rejected OutOfRange), st).
Proof.
  intros Hin Hhex Hc Hh Hn Hout. unfold import_ini.
  rewrite Hin, Hhex, Hc, Hh, Hn. cbn [mbind Py.sum_bind mret Py.sum_ret].
  assert (Hb : negb ((MIN_COLS <=? c) && (c <=? MAX_COLS))
               || negb ((0 <=? h) && (h <=? 359))
               || (n <? 0) || (50 <? n) = true).
  { unfold MIN_COLS, MAX_COLS.
    destruct (2 <=? c) eqn:?, (c <=? 360) eqn:?, (0 <=? h) eqn:?,
      (h <=? 359) eqn:?, (n <? 0) eqn:?, (50 <? n) eqn:?; try reflexivity.
    lia. }
  by rewrite Hb.
Qed.

Lemma import_rejects_out_of_range_witness :
  let doc := make_doc
    [("inputs", [("cols", "361"); ("h", "10"); ("rows_count", "0")]);
     ("hex", [("row1", "#FF0000")])] in
  let st := mkApp 7 25 [(85, 85)] None ["#ABCDEF"] {["#ABCDEF"]} in
  import_ini doc st = (inr (Rejected OutOfRange), st).
Proof.
  intros doc st.
  apply (import_rejects_out_of_range doc st
           (list_to_map [("cols", "361"); ("h", "10"); ("rows_count", "0")])
           (list_to_map [("row1", "#FF0000")]) 361 10 0);
    try (vm_compute; reflexivity).
  lia.
Defined.





(** With a [palette] section whose [colors] line is blank or missing, a
    successful import does clear the favorites. *)
Lemma import_blank_palette_clears cfg palette st st' :
  cfg !! "palette" = Some palette ->
  Py.strip (default EmptyString (palette !! "colors")) = EmptyString ->
  import_ini cfg st = (inr Imported, st') ->
  palette_hexes st' = [].
Proof.
  intros Hpal Hblank Himp.
  destruct (import_ini_cases cfg st) as [(e & He & _)|(c & h & sv & _ & Hrun)].
  { rewrite He in Himp. discriminate. }
  rewrite Hrun in Himp. unfold import_palette in Himp.
  rewrite Hpal, Hblank in Himp. simpl in Himp.
  unfold mbind, M_bind in Himp.
  destruct (update_grid _) as [[?|[]] st1]; [discriminate|].
  unfold apply_imported_palette, modify in Himp. simpl in Himp.
  by injection Himp as <-.
Qed.

(** C1 on the code: this document passes the checks on [inputs] and
    [hex], and its [palette] line holds a six-character token. The
    import is turned down for the palette, but two columns, hue 0 and an
    empty row list have replaced what the state had; only the favorites
    are what they were. *)
Lemma import_bad_palette_partial :
  let doc := make_doc
    [("inputs", [("cols", "2"); ("h", "0"); ("rows_count", "0")]);
     ("hex", [("row1", "#FF0000 #00FFFF")]);
     ("palette", [("colors", "#FF0000 #12345")])] in
  let st := mkApp 7 25 [(85, 85); (70, 70)] None ["#ABCDEF"] {["#ABCDEF"]} in
  import_validated doc 2 0 [] /\
  import_ini doc st =
    (inr (Rejected BadPalette),
     mkApp 2 0 [] (Some [[Some "#ff0000"; Some "#00ffff"]])
       ["#ABCDEF"] {["#ABCDEF"]}).
Proof.
  intros doc st. split.
  - exists (list_to_map [("cols", "2"); ("h", "0"); ("rows_count", "0")]),
      (list_to_map [("row1", "#FF0000 #00FFFF")]).
    unfold MIN_COLS, MAX_COLS.
    repeat split; try (vm_compute; reflexivity); simpl; lia.
  - vm_compute. reflexivity.
Qed.

(** ** The matrix: the loops of [_update_grid] *)

Lemma traverse_inr_lookup {A B} (f : A -> Py.exn + B) l ys :
  traverse f l = inr ys ->
  length ys = length l /\
  forall i x, l !! i = Some x -> exists y, f x = inr y /\ ys !! i = Some y.
Proof.
  revert ys. induction l as [|a l IH]; intros ys; simpl.
  - intros [= <-]. split; [done|]. intros i x. by rewrite lookup_nil.
  - destruct (f a) as [e|y] eqn:Hfa; [done|]. simpl.
    destruct (traverse f l) as [e|ys'] eqn:Htl; [done|]. simpl.
    intros [= <-]. destruct (IH ys' eq_refl) as [Hlen Hlk].
    split; [simpl; by rewrite Hlen|].
    intros [|i] x; simpl.
    + intros [= <-]. eauto.
    + apply Hlk.
Qed.

Lemma traverse_ext {A B} (f g : A -> Py.exn + B) l :
  (forall x, x ∈ l -> f x = g x) -> traverse f l = traverse g l.
Proof.
  induction l as [|a l IH]; intros Hfg; simpl; [done|].
  rewrite Hfg by left. rewrite IH; [done|].
  intros x Hx. apply Hfg. by right.
Qed.

Lemma traverse_inl {A B} (f : A -> Py.exn + B) l e :
  traverse f l = inl e -> exists x, x ∈ l /\ f x = inl e.
Proof.
  induction l as [|a l IH]; simpl; [done|].
  destruct (f a) as [e'|y] eqn:Hfa; simpl.
  - intros [= <-]. exists a. split; [left|done].
  - destruct (traverse f l) as [e'|ys]; [|done]. simpl.
    intros [= <-]. destruct IH as (x & Hx & Hfx); [done|].
    exists x. split; [by right|done].
Qed.

Lemma set_cell_hex_twice x y st :
  set_cell_hex x (set_cell_hex y st) = set_cell_hex x st.
Proof. done. Qed.

Lemma set_cell_hex_same m st :
  cell_hex st = Some m -> set_cell_hex (Some m) st = st.
Proof. destruct st. simpl. by intros ->. Qed.

Lemma run_bind {A B} (m : M A) (f : A -> M B) st :
  (m ≫= f) st =
    match m st with
    | (inl e, st') => (inl e, st')
    | (inr x, st') => f x st'
    end.
Proof. reflexivity. Qed.

Lemma run_get {B} (f : PaletteApp -> M B) st : (get ≫= f) st = f st st.
Proof. reflexivity. Qed.

Lemma run_cell_body r hues s v c st :
  (hue ← lift (from_option inr (inl Py.IndexError) (hues !! c));
   hex ← lift (hsv_to_hex (Py.Float hue) (Py.Int s) (Py.Int v));
   set_cell r c hex) st =
  match cell_of hues s v c with
  | inl e => (inl e, st)
  | inr x => set_cell r c x st
  end.
Proof.
  unfold cell_of. rewrite run_bind. unfold lift at 1.
  destruct (hues !! c) as [hue|]; simpl; [|done].
  rewrite run_bind. unfold lift at 1.
  by destruct (hsv_to_hex _ _ _).
Qed.

Lemma run_set_cell r c x st m row :
  cell_hex st = Some m -> m !! r = Some row -> (c < length row)%nat ->
  set_cell r c x st =
    (inr tt, set_cell_hex (Some (<[r := <[c := Some x]> row]> m)) st).
Proof.
  intros Hm Hr Hc. unfold set_cell. rewrite Hm, Hr.
  by rewrite bool_decide_eq_true_2.
Qed.

(** The cell loop of one row, from column [a] on. *)
Lemma paint_cells r hues s v k : forall a st m row,
  cell_hex st = Some m -> m !! r = Some row -> (a + k <= length row)%nat ->
  match traverse (cell_of hues s v) (seq a k) with
  | inr xs =>
      for_each (seq a k) (fun c =>
        hue ← lift (from_option inr (inl Py.IndexError) (hues !! c));
        hex ← lift (hsv_to_hex (Py.Float hue) (Py.Int s) (Py.Int v));
        set_cell r c hex) st =
      (inr tt,
       set_cell_hex
         (Some (<[r := take a row ++ (Some <$> xs) ++ drop (a + k) row]> m)) st)
  | inl e =>
      fst (for_each (seq a k) (fun c =>
        hue ← lift (from_option inr (inl Py.IndexError) (hues !! c));
        hex ← lift (hsv_to_hex (Py.Float hue) (Py.Int s) (Py.Int v));
        set_cell r c hex) st) = inl e
  end.
Proof.
  induction k as [|k IH]; intros a st m row Hm Hr Hlen.
  - simpl. rewrite Nat.add_0_r, take_drop, list_insert_id by done.
    by rewrite set_cell_hex_same.
  - cbn [seq traverse for_each]. rewrite run_bind, run_cell_body.
    destruct (cell_of hues s v a) as [e|x]; [done|].
    rewrite (run_set_cell _ _ _ _ m row) by (done || lia).
    set (row1 := <[a := Some x]> row).
    set (st1 := set_cell_hex (Some (<[r := row1]> m)) st).
    assert (Hr' : (r < length m)%nat) by (by eapply lookup_lt_Some).
    specialize (IH (S a) st1 (<[r := row1]> m) row1 eq_refl).
    rewrite list_lookup_insert_eq in IH by done.
    specialize (IH eq_refl).
    unfold row1 in IH at 1. rewrite length_insert in IH.
    specialize (IH ltac:(lia)).
    cbn [mbind Py.sum_bind].
    destruct (traverse _ (seq (S a) k)) as [e|xs]; [exact IH|].
    cbn [mbind Py.sum_bind mret Py.sum_ret].
    rewrite IH. f_equal. unfold st1. rewrite set_cell_hex_twice. f_equal. f_equal.
    rewrite list_insert_insert_eq. f_equal.
    assert (Hat : row1 !! a = Some (Some x)).
    { unfold row1. apply list_lookup_insert_eq. lia. }
    rewrite (take_S_r _ _ _ Hat). unfold row1.
    rewrite take_insert_ge by lia. rewrite drop_insert_lt by lia.
    rewrite <- app_assoc. simpl. by rewrite Nat.add_succ_r.
Qed.

Lemma paint_row_run r hues s v st m row :
  cell_hex st = Some m -> m !! r = Some row ->
  length row = Z.to_nat (cols st) ->
  match row_of hues (Z.to_nat (cols st)) (s, v) with
  | inr xs =>
      paint_row r hues s v st =
        (inr tt, set_cell_hex (Some (<[r := Some <$> xs]> m)) st)
  | inl e => fst (paint_row r hues s v st) = inl e
  end.
Proof.
  intros Hm Hr Hlen. unfold paint_row, row_of, range.
  rewrite run_get.
  pose proof (paint_cells r hues s v (Z.to_nat (cols st)) 0 st m row Hm Hr
                ltac:(lia)) as H.
  destruct (traverse _ _) as [e|xs] eqn:Htr; [exact H|].
  rewrite H. repeat f_equal.
  apply traverse_inr_lookup in Htr as [Hxs _]. rewrite length_seq in Hxs.
  rewrite take_0, drop_ge, app_nil_r by lia. done.
Qed.

(** The row loop, from row [S i] on. *)
Lemma paint_rows hues k : forall i st m,
  cell_hex st = Some m ->
  (S i + k <= length m)%nat -> (i + k <= length (rows st))%nat ->
  (forall r row, m !! r = Some row -> length row = Z.to_nat (cols st)) ->
  match traverse (row_of hues (Z.to_nat (cols st))) (take k (drop i (rows st))) with
  | inr xss =>
      for_each (seq (S i) k) (fun r =>
        st' ← get;
        match rows st' !! pred r with
        | Some (s_val, v_val) => paint_row r hues s_val v_val
        | None => raise Py.IndexError
        end) st =
      (inr tt,
       set_cell_hex (Some (take (S i) m ++ filled xss ++ drop (S i + k) m)) st)
  | inl e =>
      fst (for_each (seq (S i) k) (fun r =>
        st' ← get;
        match rows st' !! pred r with
        | Some (s_val, v_val) => paint_row r hues s_val v_val
        | None => raise Py.IndexError
        end) st) = inl e
  end.
Proof.
  induction k as [|k IH]; intros i st m Hm Hlm Hlr Hrows.
  - rewrite take_0, Nat.add_0_r. cbn [traverse seq for_each].
    change (filled []) with (@nil (list (option string))).
    rewrite app_nil_l, take_drop. by rewrite set_cell_hex_same.
  - destruct (lookup_lt_is_Some_2 (rows st) i ltac:(lia)) as [[s v] Hsv].
    destruct (lookup_lt_is_Some_2 m (S i) ltac:(lia)) as [row Hrow].
    rewrite (drop_S _ _ _ Hsv). cbn [take traverse seq for_each].
    rewrite run_bind, run_get. cbn [pred].
    rewrite Hsv.
    pose proof (paint_row_run (S i) hues s v st m row Hm Hrow (Hrows _ _ Hrow)) as Hp.
    destruct (row_of hues (Z.to_nat (cols st)) (s, v)) as [e|xs] eqn:Hxs.
    { cbn [mbind Py.sum_bind].
      destruct (paint_row _ _ _ _ _) as [[e'|[]] st1]; simpl in *; congruence. }
    rewrite Hp. cbn [mbind Py.sum_bind mret Py.sum_ret].
    set (m1 := <[S i := Some <$> xs]> m).
    set (st1 := set_cell_hex (Some m1) st).
    specialize (IH (S i) st1 m1 eq_refl).
    unfold m1 in IH at 1. rewrite length_insert in IH.
    specialize (IH ltac:(lia) ltac:(simpl; lia)).
    assert (Hxs' : length xs = Z.to_nat (cols st)).
    { unfold row_of in Hxs. apply traverse_inr_lookup in Hxs as [-> _].
      apply length_seq. }
    assert (Hrows1 : forall r row', m1 !! r = Some row' ->
              length row' = Z.to_nat (cols st1)).
    { intros r row'. unfold m1. destruct (decide (r = S i)) as [->|Hne].
      - rewrite list_lookup_insert_eq by lia. intros [= <-].
        by rewrite length_fmap.
      - rewrite list_lookup_insert_ne by done. apply Hrows. }
    specialize (IH Hrows1). simpl in IH.
    destruct (traverse _ (take k (drop (S i) (rows st)))) as [e|xss]; [exact IH|].
    rewrite IH. f_equal. unfold st1. rewrite set_cell_hex_twice. do 2 f_equal.
    assert (Hat : m1 !! S i = Some (Some <$> xs)).
    { unfold m1. apply list_lookup_insert_eq. lia. }
    rewrite (take_S_r _ _ _ Hat). unfold m1.
    rewrite take_insert_ge by lia. rewrite drop_insert_lt by lia.
    rewrite <- app_assoc. simpl. by rewrite Nat.add_succ_r.
Qed.

Lemma rebuild_run st :
  match hue_steps (cols st) (h_var st) with
  | inl e => fst ((build_grid;; update_grid) st) = inl e
  | inr hues =>
      match traverse (row_of hues (Z.to_nat (cols st))) ((100, 100) :: rows st) with
      | inr xss =>
          (build_grid;; update_grid) st =
            (inr tt, set_cell_hex (Some (filled xss)) st)
      | inl e => fst ((build_grid;; update_grid) st) = inl e
      end
  end.
Proof.
  set (n := Z.to_nat (cols st)).
  set (blank := replicate (S (length (rows st))) (replicate n (@None string))).
  set (st0 := set_cell_hex (Some blank) st).
  assert (Hrun : (build_grid;; update_grid) st = update_grid st0) by reflexivity.
  rewrite Hrun. unfold update_grid. rewrite run_get.
  change (cell_hex st0) with (Some blank). cbv iota.
  change (cols st0) with (cols st). change (h_var st0) with (h_var st).
  change (rows st0) with (rows st).
  destruct (hue_steps (cols st) (h_var st)) as [e|hues]; [done|].
  change ((lift (inr hues) ≫= ?f) st0) with (f hues st0). cbv beta.
  cbn [traverse].
  assert (Hseq : forall k : M unit,
    (paint_row 0 hues 100 100 ≫= fun _ => k) st0 =
      match paint_row 0 hues 100 100 st0 with
      | (inl e, st') => (inl e, st')
      | (inr _, st') => k st'
      end).
  { intros k. rewrite run_bind. by destruct (paint_row _ _ _ _ _) as [[?|[]] ?]. }
  rewrite !Hseq. clear Hseq.
  pose proof (paint_row_run 0 hues 100 100 st0 blank (replicate n None)
                eq_refl eq_refl ltac:(by rewrite length_replicate)) as Hp.
  change (cols st0) with (cols st) in Hp. fold n in Hp. fold n.
  destruct (row_of hues n (100, 100)) as [e|xs0] eqn:Hxs0.
  { cbn [mbind Py.sum_bind].
    destruct (paint_row 0 hues 100 100 st0) as [[e'|[]] st1]; simpl in *; congruence. }
  rewrite Hp. cbn [mbind Py.sum_bind mret Py.sum_ret].
  set (m1 := <[0%nat := Some <$> xs0]> blank).
  set (st1 := set_cell_hex (Some m1) st0).
  assert (Hxs0' : length xs0 = n).
  { unfold row_of in Hxs0. apply traverse_inr_lookup in Hxs0 as [-> _].
    apply length_seq. }
  pose proof (paint_rows hues (length (rows st)) 0 st1 m1 eq_refl) as Hr.
  unfold m1 in Hr at 1. rewrite length_insert in Hr. unfold blank in Hr at 1.
  rewrite length_replicate in Hr.
  specialize (Hr ltac:(lia) ltac:(simpl; lia)).
  assert (Hrows1 : forall r row, m1 !! r = Some row ->
            length row = Z.to_nat (cols st1)).
  { intros r row. unfold m1. destruct r as [|r]; simpl.
    - intros [= <-]. by rewrite length_fmap.
    - unfold blank. simpl. intros Hl%lookup_replicate_1. destruct Hl as [-> _].
      by rewrite length_replicate. }
  specialize (Hr Hrows1).
  change (cols st1) with (cols st) in Hr. change (rows st1) with (rows st) in Hr.
  fold n in Hr. rewrite drop_0, firstn_all in Hr.
  destruct (traverse (row_of hues n) (rows st)) as [e|xss]; [exact Hr|].
  rewrite Hr. f_equal. unfold st1, st0. rewrite !set_cell_hex_twice. do 2 f_equal.
  unfold m1, blank. simpl.
  rewrite drop_ge by (rewrite length_replicate; lia).
  by rewrite app_nil_r.
Qed.

Lemma traverse_fails {A B} (f : A -> Py.exn + B) l x e :
  x ∈ l -> f x = inl e -> exists e', traverse f l = inl e'.
Proof.
  induction l as [|a l IH]; intros Hx Hfx; [by apply not_elem_of_nil in Hx|].
  simpl. destruct (f a) as [e'|y] eqn:Hfa; [by eexists|].
  apply elem_of_cons in Hx as [->|Hx]; [congruence|].
  destruct (IH Hx Hfx) as [e' ->]. by eexists.
Qed.

Lemma elem_of_range c n : c ∈ range n <-> (c < Z.to_nat n)%nat.
Proof. unfold range. rewrite elem_of_seq. lia. Qed.

(** The list of hues that [_update_grid] builds holds, column by column,
    the hue of the spec's formula. *)
Lemma hue_steps_column_hue columns base :
  match hue_steps columns base with
  | inr hues =>
      length hues = Z.to_nat columns /\
      forall c, (c < Z.to_nat columns)%nat ->
        exists hue, hues !! c = Some hue /\ column_hue columns base c = inr hue
  | inl e =>
      forall c, (c < Z.to_nat columns)%nat ->
        exists c' e', (c' < Z.to_nat columns)%nat /\
          column_hue columns base c' = inl e'
  end.
Proof.
  unfold hue_steps, column_hue.
  destruct (Py.float_of_int columns) as [e|cf]; cbn [mbind Py.sum_bind].
  { intros c Hc. exists c, e. done. }
  destruct (cf =? 0)%float.
  { intros c Hc. exists c, Py.ZeroDivisionError. done. }
  destruct (traverse _ (range columns)) as [e|hues] eqn:Htr.
  - intros _ _. apply traverse_inl in Htr as (c' & Hc'%elem_of_range & Hf).
    exists c', e. split; [done|]. exact Hf.
  - apply traverse_inr_lookup in Htr as [Hlen Hlk].
    unfold range in Hlen. rewrite length_seq in Hlen. split; [done|].
    intros c Hc. destruct (Hlk c c) as (hue & Hf & Hh).
    { unfold range. by apply lookup_seq_lt. }
    exists hue. split; [done|]. exact Hf.
Qed.

Lemma computeMatrix_rows columns base rs :
  1 <= columns ->
  match hue_steps columns base with
  | inr hues =>
      computeMatrix columns base rs =
        traverse (row_of hues (Z.to_nat columns)) ((100, 100) :: rs)
  | inl _ => exists e, computeMatrix columns base rs = inl e
  end.
Proof.
  intros Hcols. pose proof (hue_steps_column_hue columns base) as H.
  destruct (hue_steps columns base) as [e|hues].
  - destruct (H 0%nat ltac:(lia)) as (c & e' & Hc & Hcol).
    unfold computeMatrix. cbn [traverse].
    destruct (traverse_fails
      (fun c => hue ← column_hue columns base c;
                hsv_to_hex (Py.Float hue) (Py.Int 100) (Py.Int 100))
      (range columns) c e') as [e'' ->].
    + by apply elem_of_range.
    + by rewrite Hcol.
    + by eexists.
  - destruct H as [Hlen Hcol]. unfold computeMatrix.
    apply traverse_ext. intros [s v] _. unfold row_of, range. simpl.
    apply traverse_ext. intros c [_ Hc]%elem_of_seq.
    destruct (Hcol c ltac:(lia)) as (hue & Hh & ->).
    unfold cell_of. by rewrite Hh.
Qed.

Lemma computeMatrix_shape columns base rs xss :
  computeMatrix columns base rs = inr xss ->
  length xss = S (length rs) /\
  (forall row, row ∈ xss -> length row = Z.to_nat columns) /\
  (forall r c s v, ((100, 100) :: rs) !! r = Some (s, v) ->
     (c < Z.to_nat columns)%nat ->
     exists hue x row,
       column_hue columns base c = inr hue /\
       hsv_to_hex (Py.Float hue) (Py.Int s) (Py.Int v) = inr x /\
       xss !! r = Some row /\ row !! c = Some x).
Proof.
  unfold computeMatrix. intros [Hlen Hlk]%traverse_inr_lookup.
  split; [exact Hlen|]. split.
  - intros row (r & Hr)%list_elem_of_lookup.
    destruct (lookup_lt_is_Some_2 ((100, 100) :: rs) r) as [[s v] Hsv].
    { rewrite <- Hlen. by eapply lookup_lt_Some. }
    destruct (Hlk r _ Hsv) as (row' & Hrow' & Hr').
    assert (row' = row) as -> by congruence.
    apply traverse_inr_lookup in Hrow' as [-> _].
    unfold range. apply length_seq.
  - intros r c s v Hsv Hc.
    destruct (Hlk r _ Hsv) as (row & Hrow & Hr).
    apply traverse_inr_lookup in Hrow as [_ Hcells].
    destruct (Hcells c c) as (x & Hx & Hrc).
    { unfold range. by apply lookup_seq_lt. }
    destruct (column_hue columns base c) as [e|hue]; [done|].
    exists hue, x, row. done.
Qed.

(** The repaint against the spec's matrix, for any state with at least
    one column. *)
Lemma rebuild_computeMatrix st :
  1 <= cols st ->
  match computeMatrix (cols st) (h_var st) (rows st) with
  | inr xss =>
      (build_grid;; update_grid) st =
        (inr tt, set_cell_hex (Some (filled xss)) st)
  | inl _ => exists e', fst ((build_grid;; update_grid) st) = inl e'
  end.
Proof.
  intros Hc.
  pose proof (computeMatrix_rows (cols st) (h_var st) (rows st) Hc) as Hcm.
  pose proof (rebuild_run st) as Hrb.
  destruct (hue_steps (cols st) (h_var st)) as [e|hues].
  - destruct Hcm as [e' ->]. by eexists.
  - rewrite Hcm. destruct (traverse _ _) as [e|xss]; [by eexists|done].
Qed.

(** C4. For a column count in [2,360], [_build_grid] followed by
    [_update_grid] stores exactly the spec's [computeMatrix] of the
    columns, the base hue and the rows, provided the conversions return
    (when one of them raises, so does the repaint). That matrix has
    [1 + len(rows)] rows of [columns] cells; the cell of row [r] and
    column [c] is [hsv_to_hex] of the column's hue
    [(base + 360/columns * c) % 360] and of 100/100 for row 0, of the S
    and V of row [r - 1] below; and it depends on nothing else of the
    state: a second state with the same three inputs gets the same
    matrix. *)
Theorem update_grid_computes_matrix (st : PaletteApp) :
  MIN_COLS <= cols st <= MAX_COLS ->
  (forall e, computeMatrix (cols st) (h_var st) (rows st) = inl e ->
     exists e', fst ((build_grid;; update_grid) st) = inl e') /\
  (forall xss, computeMatrix (cols st) (h_var st) (rows st) = inr xss ->
     (build_grid;; update_grid) st = (inr tt, set_cell_hex (Some (filled xss)) st) /\
     length xss = S (length (rows st)) /\
     (forall row, row ∈ xss -> length row = Z.to_nat (cols st)) /\
     (forall r c s v, ((100, 100) :: rows st) !! r = Some (s, v) ->
        (c < Z.to_nat (cols st))%nat ->
        exists hue x row,
          column_hue (cols st) (h_var st) c = inr hue /\
          hsv_to_hex (Py.Float hue) (Py.Int s) (Py.Int v) = inr x /\
          xss !! r = Some row /\ row !! c = Some x) /\
     (forall st2, cols st2 = cols st -> h_var st2 = h_var st ->
        rows st2 = rows st ->
        cell_hex (snd ((build_grid;; update_grid) st2)) = Some (filled xss))).
Proof.
  intros [Hlo _]. unfold MIN_COLS in Hlo.
  assert (Hrun : forall st2, cols st2 = cols st -> h_var st2 = h_var st ->
            rows st2 = rows st ->
            match computeMatrix (cols st) (h_var st) (rows st) with
            | inr xss =>
                (build_grid;; update_grid) st2 =
                  (inr tt, set_cell_hex (Some (filled xss)) st2)
            | inl _ => exists e', fst ((build_grid;; update_grid) st2) = inl e'
            end).
  { intros st2 Hc Hh Hr. rewrite <- Hc, <- Hh, <- Hr.
    apply rebuild_computeMatrix. lia. }
  split.
  - intros e He. specialize (Hrun st eq_refl eq_refl eq_refl).
    by rewrite He in Hrun.
  - intros xss Hxss.
    destruct (computeMatrix_shape _ _ _ _ Hxss) as (Hlen & Hrows & Hcells).
    pose proof (Hrun st eq_refl eq_refl eq_refl) as Hst. rewrite Hxss in Hst.
    repeat split; try done.
    intros st2 Hc Hh Hr. specialize (Hrun st2 Hc Hh Hr).
    rewrite Hxss in Hrun. by rewrite Hrun.
Qed.

Lemma update_grid_computes_matrix_witness :
  let st := mkApp 4 0 [] None ["#ABCDEF"] ∅ in
  (build_grid;; update_grid) st =
    (inr tt,
     set_cell_hex
       (Some [[Some "#ff0000"; Some "#80ff00"; Some "#00ffff"; Some "#8000ff"]])
       st).
Proof.
  intros st.
  destruct (update_grid_computes_matrix st) as [_ H];
    [unfold MIN_COLS, MAX_COLS; simpl; lia|].
  destruct (H [["#ff0000"; "#80ff00"; "#00ffff"; "#8000ff"]]) as [Hrun _];
    [vm_compute; reflexivity|].
  exact Hrun.
Defined.

Example column_hues_of_four :
  hue_steps 4 0 = inr [0; 90; 180; 270]%float.
Proof. vm_compute. reflexivity. Qed.

(** ** Text round trips: [int(str(n))], [split] of a [join] *)

Lemma digit_char_ok d :
  0 <= d < 16 ->
  Py.digit_value (Py.digit_char d) = Some d /\
  Py.digit_char d <> "_"%char /\ Py.digit_char d <> "+"%char /\
  Py.digit_char d <> "-"%char /\ Py.isspace (Py.digit_char d) = false.
Proof.
  intros Hd.
  assert (d = 0 \/ d = 1 \/ d = 2 \/ d = 3 \/ d = 4 \/ d = 5 \/ d = 6 \/ d = 7 \/
          d = 8 \/ d = 9 \/ d = 10 \/ d = 11 \/ d = 12 \/ d = 13 \/ d = 14 \/
          d = 15) as Hcases by lia.
  repeat (destruct Hcases as [->|Hcases]); try subst d; by vm_compute.
Qed.

Lemma digits_go_S fuel base n acc :
  Py.digits_go (S fuel) base n acc =
    if n <? base then String (Py.digit_char (n mod base)) acc
    else Py.digits_go fuel base (n / base) (String (Py.digit_char (n mod base)) acc).
Proof. cbn [Py.digits_go]. by destruct (n <? base). Qed.

Section Digits.
Variable base : Z.
Hypothesis base_range : 2 <= base <= 16.

Lemma digit_in_char d :
  0 <= d < base -> Py.digit_in base (Py.digit_char d) = Some d.
Proof.
  intros Hd. unfold Py.digit_in.
  destruct (digit_char_ok d ltac:(lia)) as [-> _].
  destruct (Z.ltb_spec d base); [done|lia].
Qed.

Lemma digits_go_head fuel n acc :
  0 <= n ->
  exists d r, 0 <= d < base /\
    Py.digits_go (S fuel) base n acc = String (Py.digit_char d) r.
Proof.
  revert n acc. induction fuel as [|fuel IH]; intros n acc Hn.
  - rewrite digits_go_S. exists (n mod base), acc.
    split; [apply Z.mod_pos_bound; lia|]. by destruct (n <? base).
  - rewrite digits_go_S.
    destruct (n <? base).
    + exists (n mod base), acc. split; [apply Z.mod_pos_bound; lia|done].
    + apply IH. apply Z.div_pos; lia.
Qed.

Lemma scan_digits_go fuel : forall n acc cnt a,
  0 <= n < base ^ Z.of_nat (S fuel) ->
  exists k : nat,
    Py.scan_digits base false cnt a (Py.digits_go (S fuel) base n acc) =
    Py.scan_digits base false (cnt + S k) (a * base ^ Z.of_nat (S k) + n) acc.
Proof.
  induction fuel as [|fuel IH]; intros n acc cnt a Hn.
  - exists 0%nat. change (base ^ Z.of_nat 1) with (base ^ 1) in *.
    rewrite Z.pow_1_r in *.
    rewrite digits_go_S. destruct (Z.ltb_spec n base); [|lia].
    rewrite Z.mod_small by lia. cbn [Py.scan_digits].
    destruct (digit_char_ok n ltac:(lia)) as (_ & Hus & _).
    destruct (ascii_dec (Py.digit_char n) "_"); [done|].
    rewrite digit_in_char by lia.
    by rewrite Nat.add_1_r.
  - rewrite digits_go_S.
    assert (Hm : 0 <= n mod base < base) by (apply Z.mod_pos_bound; lia).
    assert (Hstep : forall cnt' a',
      Py.scan_digits base false cnt' a' (String (Py.digit_char (n mod base)) acc) =
      Py.scan_digits base false (S cnt') (a' * base + n mod base) acc).
    { intros cnt' a'. cbn [Py.scan_digits].
      destruct (digit_char_ok (n mod base) ltac:(lia)) as (_ & Hus & _).
      destruct (ascii_dec (Py.digit_char (n mod base)) "_"); [done|].
      by rewrite digit_in_char. }
    destruct (Z.ltb_spec n base).
    + exists 0%nat. rewrite Hstep. rewrite Z.mod_small by lia.
      change (base ^ Z.of_nat 1) with (base ^ 1). rewrite Z.pow_1_r.
      by rewrite Nat.add_1_r.
    + destruct (IH (n / base) (String (Py.digit_char (n mod base)) acc) cnt a)
        as [k Hk].
      { split; [apply Z.div_pos; lia|].
        apply Z.div_lt_upper_bound; [lia|].
        rewrite (Nat2Z.inj_succ (S fuel)), Z.pow_succ_r in Hn by lia. lia. }
      exists (S k). rewrite Hk, Hstep. f_equal; [lia|].
      rewrite (Nat2Z.inj_succ (S k)), Z.pow_succ_r by lia.
      pose proof (Z.div_mod n base ltac:(lia)). lia.
Qed.

Lemma digits_fuel n :
  0 <= n -> n < base ^ Z.of_nat (S (Z.to_nat (Z.log2 n))).
Proof.
  intros Hn. destruct (decide (n = 0)) as [->|Hn0].
  - simpl. apply Z.pow_pos_nonneg; lia.
  - pose proof (Z.log2_spec n ltac:(lia)) as [_ Hlt].
    pose proof (Z.log2_nonneg n).
    rewrite Nat2Z.inj_succ, Z2Nat.id by lia.
    eapply Z.lt_le_trans; [exact Hlt|].
    apply Z.pow_le_mono_l. lia.
Qed.
End Digits.

Lemma int_of_str n : 0 <= n -> Py.int_of 10 (Py.str n) = Some n.
Proof.
  intros Hn. unfold Py.str. destruct (Z.ltb_spec n 0); [lia|].
  unfold Py.digits.
  destruct (digits_go_head 10 ltac:(lia) (Z.to_nat (Z.log2 n)) n EmptyString Hn)
    as (d & r & Hd & Hhead).
  destruct (scan_digits_go 10 ltac:(lia) (Z.to_nat (Z.log2 n)) n EmptyString 0 0)
    as [k Hscan].
  { split; [done|]. apply digits_fuel; lia. }
  destruct (digit_char_ok d ltac:(lia)) as (_ & Hus & Hplus & Hminus & Hsp).
  unfold Py.int_of.
  rewrite Hhead. cbn [Py.lstrip]. rewrite Hsp. unfold Py.skip_sign.
  destruct (ascii_dec (Py.digit_char d) "+"); [done|].
  destruct (ascii_dec (Py.digit_char d) "-"); [done|].
  assert (Hpre : forall s, Py.skip_prefix 10 s = s).
  { intros [|c0 [|c1 s]]; reflexivity. }
  rewrite Hpre.
  destruct (ascii_dec (Py.digit_char d) "_"); [done|].
  rewrite <- Hhead, Hscan. cbn [Py.scan_digits Py.lstrip Nat.add].
  f_equal; lia.
Qed.

Lemma str_inj i j : 0 <= i -> 0 <= j -> Py.str i = Py.str j -> i = j.
Proof.
  intros Hi Hj Heq. apply (f_equal (Py.int_of 10)) in Heq.
  rewrite !int_of_str in Heq by done. congruence.
Qed.

(** *** Keys of the document *)

Lemma string_app_cons c (s t : string) : String c s +:+ t = String c (s +:+ t).
Proof. reflexivity. Qed.

Lemma string_app_nil_l (t : string) : EmptyString +:+ t = t.
Proof. reflexivity. Qed.

Lemma to_list_app s t :
  String.list_ascii_of_string (s +:+ t) =
    String.list_ascii_of_string s ++ String.list_ascii_of_string t.
Proof.
  induction s as [|c s IH]; [done|].
  rewrite string_app_cons. simpl. by rewrite IH.
Qed.

Lemma to_list_inj s t :
  String.list_ascii_of_string s = String.list_ascii_of_string t -> s = t.
Proof.
  intros H. apply (f_equal String.string_of_list_ascii) in H.
  by rewrite !String.string_of_list_ascii_of_string in H.
Qed.

Lemma string_app_assoc (a b c : string) : (a +:+ b) +:+ c = a +:+ (b +:+ c).
Proof.
  induction a as [|x a IH]; [done|]. by rewrite !string_app_cons, IH.
Qed.

Lemma string_app_nil_r (a : string) : a +:+ EmptyString = a.
Proof. induction a as [|x a IH]; [done|]. by rewrite string_app_cons, IH. Qed.

Lemma string_app_inj_tail s1 s2 t1 t2 :
  String.length t1 = String.length t2 ->
  s1 +:+ t1 = s2 +:+ t2 -> s1 = s2 /\ t1 = t2.
Proof.
  intros Hlen Heq. apply (f_equal String.list_ascii_of_string) in Heq.
  rewrite !to_list_app in Heq.
  apply app_inj_2 in Heq as [H1 H2].
  - split; by apply to_list_inj.
  - clear -Hlen. revert t2 Hlen.
    induction t1 as [|c t1 IH]; intros [|c2 t2]; simpl; try done.
    intros [= H]. f_equal. by apply IH.
Qed.

Lemma str_head i :
  0 <= i -> exists d r, 0 <= d < 10 /\ Py.str i = String (Py.digit_char d) r.
Proof.
  intros Hi. unfold Py.str. destruct (Z.ltb_spec i 0); [lia|].
  apply (digits_go_head 10); lia.
Qed.

Lemma row_key_inj i j : 0 <= i -> 0 <= j -> row_key i = row_key j -> i = j.
Proof.
  intros Hi Hj. unfold row_key. intros H%(inj (String.append "row")).
  by apply str_inj.
Qed.

Lemma row_s_key_inj i j : 0 <= i -> 0 <= j -> row_s_key i = row_s_key j -> i = j.
Proof.
  intros Hi Hj. unfold row_s_key. intros H%(inj (String.append "row")).
  apply string_app_inj_tail in H as [H _]; [|done]. by apply str_inj.
Qed.

Lemma row_v_key_inj i j : 0 <= i -> 0 <= j -> row_v_key i = row_v_key j -> i = j.
Proof.
  intros Hi Hj. unfold row_v_key. intros H%(inj (String.append "row")).
  apply string_app_inj_tail in H as [H _]; [|done]. by apply str_inj.
Qed.

Lemma row_s_key_v_key i j : row_s_key i <> row_v_key j.
Proof.
  unfold row_s_key, row_v_key. intros H%(inj (String.append "row")).
  apply string_app_inj_tail in H as [_ H]; done.
Qed.

Lemma row_keys_fresh i :
  0 <= i ->
  forall k, k ∈ ["cols"; "h"; "rows_count"] ->
    row_s_key i <> k /\ row_v_key i <> k.
Proof.
  intros Hi k Hk. destruct (str_head i Hi) as (d & r & Hd & Hstr).
  destruct (digit_char_ok d ltac:(lia)) as (Hval & _).
  unfold row_s_key, row_v_key. rewrite Hstr.
  set_unfold in Hk. destruct Hk as [->|[->|[->|[]]]];
    (split; intros H; try discriminate H).
  all: simpl in H; injection H as H _; rewrite H in Hval; vm_compute in Hval;
    injection Hval as <-; lia.
Qed.

(** *** The [inputs] section written and read back *)

Lemma export_rows_frame rs : forall i inputs k,
  (forall j, i <= j -> k <> row_s_key j /\ k <> row_v_key j) ->
  export_rows i rs inputs !! k = inputs !! k.
Proof.
  induction rs as [|[s v] rs IH]; intros i inputs k Hk; simpl; [done|].
  rewrite IH by (intros j Hj; apply Hk; lia).
  destruct (Hk i ltac:(lia)) as [Hs Hv].
  by rewrite !lookup_insert_ne.
Qed.

Lemma export_rows_lookup rs : forall i inputs j s v,
  0 <= i -> rs !! j = Some (s, v) ->
  export_rows i rs inputs !! row_s_key (i + Z.of_nat j) = Some (Py.str s) /\
  export_rows i rs inputs !! row_v_key (i + Z.of_nat j) = Some (Py.str v).
Proof.
  induction rs as [|[s0 v0] rs IH]; intros i inputs j s v Hi Hj; [done|].
  destruct j as [|j]; simpl in *.
  - injection Hj as -> ->. rewrite Z.add_0_r.
    rewrite !export_rows_frame.
    + rewrite lookup_insert_ne by apply not_eq_sym, row_s_key_v_key.
      by rewrite !lookup_insert_eq.
    + intros j Hj. split; [apply not_eq_sym, row_s_key_v_key|].
      intros H%row_v_key_inj; lia.
    + intros j Hj. split; [|apply row_s_key_v_key].
      intros H%row_s_key_inj; lia.
  - destruct (IH (i + 1) (<[row_v_key i := Py.str v0]>
                           (<[row_s_key i := Py.str s0]> inputs)) j s v
                ltac:(lia) Hj) as [Hs Hv].
    replace (i + Z.of_nat (S j)) with (i + 1 + Z.of_nat j) by lia.
    done.
Qed.

Lemma export_inputs_head a :
  export_inputs a !! "cols" = Some (Py.str (cols a)) /\
  export_inputs a !! "h" = Some (Py.str (h_var a)) /\
  export_inputs a !! "rows_count" = Some (Py.str (Z.of_nat (length (rows a)))).
Proof.
  unfold export_inputs.
  rewrite !export_rows_frame;
    try (intros j Hj; split; apply not_eq_sym;
         apply (row_keys_fresh j ltac:(lia)); set_solver).
  by repeat split.
Qed.

Lemma range_from_S a n :
  0 <= n -> range_from a (n + 1) = a :: range_from (a + 1) n.
Proof.
  intros Hn. unfold range_from.
  replace (Z.to_nat (n + 1)) with (S (Z.to_nat n)) by lia.
  cbn [seq fmap list_fmap]. f_equal; [lia|].
  rewrite <- fmap_S_seq, <- list_fmap_compose.
  apply list_fmap_ext. intros _ k _. simpl. lia.
Qed.

Lemma int_of_opt_str n : 0 <= n -> Py.int_of_opt (Some (Py.str n)) = inr n.
Proof. intros Hn. unfold Py.int_of_opt. by rewrite int_of_str. Qed.

Lemma read_sv_exported inputs rs : forall i,
  0 <= i ->
  (forall j s v, rs !! j = Some (s, v) ->
     inputs !! row_s_key (i + Z.of_nat j) = Some (Py.str s) /\
     inputs !! row_v_key (i + Z.of_nat j) = Some (Py.str v) /\
     0 <= s <= 100 /\ 0 <= v <= 100) ->
  read_sv inputs (range_from i (Z.of_nat (length rs))) = inr rs.
Proof.
  induction rs as [|[s v] rs IH]; intros i Hi Hlk; [done|].
  cbn [length]. rewrite Nat2Z.inj_succ, <- Z.add_1_r, range_from_S by lia.
  cbn [read_sv].
  destruct (Hlk 0%nat s v eq_refl) as (Hs & Hv & Hsr & Hvr).
  rewrite Z.add_0_r in Hs, Hv. rewrite Hs, Hv.
  rewrite !int_of_opt_str by lia. cbn [mbind Py.sum_bind mret Py.sum_ret].
  destruct (Z.leb_spec 0 s); [|lia]. destruct (Z.leb_spec s 100); [|lia].
  destruct (Z.leb_spec 0 v); [|lia]. destruct (Z.leb_spec v 100); [|lia].
  cbn [andb]. rewrite IH; [done|lia|].
  intros j s' v' Hj. specialize (Hlk (S j) s' v' Hj).
  replace (i + 1 + Z.of_nat j) with (i + Z.of_nat (S j)) by lia. exact Hlk.
Qed.

(** *** Lines of tokens written and read back *)

Lemma is_token_cons t :
  is_token t = true ->
  exists c r, t = String c r /\ Py.isspace c = false /\ no_space r = true.
Proof.
  unfold is_token. destruct t as [|c r]; [done|]. simpl.
  intros [Hc Hr]%andb_true_iff. exists c, r.
  by apply negb_true_iff in Hc.
Qed.

Lemma split_go_no_space tok : forall cur rest,
  no_space tok = true ->
  Py.split_go cur (tok +:+ rest) = Py.split_go (cur +:+ tok) rest.
Proof.
  induction tok as [|c tok IH]; intros cur rest Htok.
  - by rewrite string_app_nil_l, string_app_nil_r.
  - simpl in Htok. apply andb_true_iff in Htok as [Hc%negb_true_iff Htok].
    rewrite string_app_cons. cbn [Py.split_go]. rewrite Hc.
    rewrite IH by done. f_equal.
    by rewrite string_app_assoc.
Qed.

Lemma flush_token t : is_token t = true -> Py.flush t = [t].
Proof. by intros (c & r & -> & _)%is_token_cons. Qed.

Lemma split_join toks :
  Forall (fun t => is_token t = true) toks ->
  Py.split (Py.join " " toks) = toks.
Proof.
  unfold Py.split. induction 1 as [|t toks Ht Hts IH]; [done|].
  assert (Hns : no_space t = true).
  { unfold is_token in Ht. by apply andb_true_iff in Ht as [_ ?]. }
  destruct toks as [|t' toks].
  - cbn [Py.join]. rewrite <- (string_app_nil_r t) at 1.
    rewrite split_go_no_space by done.
    rewrite string_app_nil_l. cbn [Py.split_go]. by apply flush_token.
  - change (Py.join " " (t :: t' :: toks))
      with (t +:+ String " " (Py.join " " (t' :: toks))).
    rewrite split_go_no_space by done. rewrite string_app_nil_l.
    cbn [Py.split_go]. change (Py.isspace " ") with true. cbv iota.
    rewrite flush_token by done. simpl. f_equal. exact IH.
Qed.

Lemma rstrip_no_space t : no_space t = true -> Py.rstrip t = t.
Proof.
  induction t as [|c t IH]; [done|]. simpl.
  intros [Hc%negb_true_iff Ht]%andb_true_iff.
  rewrite IH by done. rewrite Hc. by destruct t.
Qed.

Lemma strip_token t : is_token t = true -> Py.strip t = t.
Proof.
  intros Ht. destruct (is_token_cons t Ht) as (c & r & -> & Hc & Hr).
  unfold Py.strip. cbn [Py.lstrip]. rewrite Hc.
  apply rstrip_no_space. simpl. by rewrite Hc, Hr.
Qed.

Lemma rstrip_app a b :
  b <> EmptyString -> Py.rstrip b = b -> Py.rstrip (a +:+ b) = a +:+ b.
Proof.
  intros Hb Hrb. induction a as [|c a IH]; [done|].
  rewrite string_app_cons. cbn [Py.rstrip]. rewrite IH.
  destruct (a +:+ b) eqn:Hab; [|done].
  destruct a; [|done]. by rewrite string_app_nil_l in Hab.
Qed.

Lemma rstrip_join toks :
  toks <> [] -> Forall (fun t => is_token t = true) toks ->
  Py.rstrip (Py.join " " toks) = Py.join " " toks.
Proof.
  intros Hne Hall. induction Hall as [|t toks Ht Hts IH]; [done|].
  destruct (is_token_cons t Ht) as (c & r & -> & Hc & Hr).
  destruct toks as [|t' toks].
  - cbn [Py.join]. apply rstrip_no_space. simpl. by rewrite Hc, Hr.
  - change (Py.join " " (String c r :: t' :: toks))
      with (String c r +:+ String " " (Py.join " " (t' :: toks))).
    change (String " " (Py.join " " (t' :: toks)))
      with (String " " EmptyString +:+ Py.join " " (t' :: toks)).
    rewrite <- string_app_assoc. apply rstrip_app; [|by apply IH].
    inversion Hts as [|? ? Ht' _]; subst.
    destruct (is_token_cons t' Ht') as (c' & r' & -> & _).
    by destruct toks.
Qed.

Lemma strip_join toks :
  Forall (fun t => is_token t = true) toks ->
  Py.strip (Py.join " " toks) = Py.join " " toks.
Proof.
  intros Hall. destruct toks as [|t toks]; [done|].
  unfold Py.strip.
  assert (Py.lstrip (Py.join " " (t :: toks)) = Py.join " " (t :: toks)) as ->.
  { inversion Hall as [|? ? Ht _]; subst.
    destruct (is_token_cons t Ht) as (c & r & -> & Hc & _).
    destruct toks; cbn [Py.join]; rewrite ?string_app_cons; cbn [Py.lstrip];
      by rewrite Hc. }
  by apply rstrip_join.
Qed.

Lemma truthy_join t toks :
  is_token t = true -> Py.truthy (Py.join " " (t :: toks)) = true.
Proof.
  intros (c & r & -> & _)%is_token_cons. by destruct toks.
Qed.

Lemma hex_items_join toks :
  Forall (fun t => is_token t = true) toks ->
  hex_items (Py.join " " toks) = Py.upper <$> toks.
Proof.
  intros Hall. unfold hex_items. rewrite split_join by done.
  induction Hall as [|t toks Ht Hts IH]; [done|].
  cbn [List.filter]. rewrite (strip_token t Ht).
  destruct (is_token_cons t Ht) as (c & r & Heq & _).
  assert (Py.truthy t = true) as -> by (by rewrite Heq).
  cbn [fmap list_fmap]. rewrite (strip_token t Ht). f_equal. exact IH.
Qed.

Lemma isspace_upper_char c : Py.isspace (Py.upper_char c) = Py.isspace c.
Proof. by destruct c as [[] [] [] [] [] [] [] []]. Qed.

Lemma upper_char_hash c : Py.upper_char c = "#"%char <-> c = "#"%char.
Proof. destruct c as [[] [] [] [] [] [] [] []]; by vm_compute. Qed.

Lemma no_space_upper s : no_space (Py.upper s) = no_space s.
Proof.
  induction s as [|c s IH]; [done|]. simpl. by rewrite isspace_upper_char, IH.
Qed.

Lemma length_upper s : String.length (Py.upper s) = String.length s.
Proof. induction s as [|c s IH]; [done|]. simpl. by rewrite IH. Qed.

Lemma is_token_upper s : is_token (Py.upper s) = is_token s.
Proof. unfold is_token. rewrite no_space_upper. by destruct s. Qed.

Lemma bad_token_upper s : bad_token (Py.upper s) = bad_token s.
Proof.
  unfold bad_token, Py.len. rewrite length_upper.
  destruct s as [|c s]; [reflexivity|]. cbn [Py.upper Py.startswith_hash].
  destruct (ascii_dec c "#") as [->|Hc]; [reflexivity|].
  destruct (ascii_dec (Py.upper_char c) "#") as [He|]; [|reflexivity].
  exfalso. apply Hc. by apply upper_char_hash.
Qed.

Lemma all_hex_no_space r : all_hex r = true -> no_space r = true.
Proof.
  induction r as [|c r IH]; [done|]. simpl.
  intros [Hc Hr]%andb_true_iff.
  apply hex_digit_cases in Hc as (d & _ & _ & -> & _). simpl. by apply IH.
Qed.

Lemma is_color_token x :
  is_color x = true -> is_token x = true /\ bad_token x = false.
Proof.
  destruct x as [|c r]; [done|]. simpl.
  intros [Hc%bool_decide_eq_true H6]%andb_true_iff. subst c.
  unfold hex6 in H6. apply andb_true_iff in H6 as [Hlen%Nat.eqb_eq Hall].
  split.
  - unfold is_token. simpl. by apply all_hex_no_space.
  - unfold bad_token, Py.len. simpl. by rewrite Hlen.
Qed.

(** *** The [hex] section written and checked *)

Lemma traverse_lookup_seq {A B} (l : list A) (f : nat -> Py.exn + B) (g : A -> B) :
  forall a,
  (forall c x, l !! c = Some x -> f (a + c)%nat = inr (g x)) ->
  traverse f (seq a (length l)) = inr (g <$> l).
Proof.
  induction l as [|x l IH]; intros a Hf; [done|].
  cbn [length seq traverse]. rewrite <- (Nat.add_0_r a) at 1.
  rewrite (Hf 0%nat x eq_refl). cbn [mbind Py.sum_bind].
  rewrite IH; [done|].
  intros c y Hc. replace (S a + c)%nat with (a + S c)%nat by lia.
  by apply (Hf (S c)).
Qed.

Lemma cell_upper_filled xss r c row x :
  xss !! r = Some row -> row !! c = Some x ->
  cell_upper (filled xss) r c = inr (Py.upper x).
Proof.
  intros Hr Hc. unfold cell_upper, filled.
  rewrite list_lookup_fmap, Hr. simpl.
  by rewrite list_lookup_fmap, Hc.
Qed.

Lemma export_hex_row xss ncols r row :
  xss !! r = Some row -> length row = Z.to_nat ncols ->
  traverse (cell_upper (filled xss) r) (range ncols) = inr (Py.upper <$> row).
Proof.
  intros Hr Hlen. unfold range. rewrite <- Hlen.
  apply traverse_lookup_seq. intros c x Hc. simpl.
  by eapply cell_upper_filled.
Qed.

Lemma export_hex_spec xss ncols k : forall a acc,
  (a + k <= length xss)%nat ->
  (forall row, row ∈ xss -> length row = Z.to_nat ncols) ->
  exists hs,
    export_hex (filled xss) ncols (seq a k) acc = inr hs /\
    (forall r row, (a <= r < a + k)%nat -> xss !! r = Some row ->
       hs !! row_key (Z.of_nat r + 1) = Some (Py.join " " (Py.upper <$> row))) /\
    (forall key, (forall r, (a <= r)%nat -> key <> row_key (Z.of_nat r + 1)) ->
       hs !! key = acc !! key).
Proof.
  induction k as [|k IH]; intros a acc Hlen Hrows.
  - exists acc. split; [done|]. split; [intros; lia|done].
  - destruct (lookup_lt_is_Some_2 xss a ltac:(lia)) as [row Hrow].
    cbn [seq export_hex].
    rewrite (export_hex_row _ _ _ row Hrow) by (apply Hrows; by eapply list_elem_of_lookup_2).
    cbn [mbind Py.sum_bind].
    destruct (IH (S a) (<[row_key (Z.of_nat a + 1) := Py.join " " (Py.upper <$> row)]> acc)
                ltac:(lia) Hrows) as (hs & Hhs & Hin & Hout).
    exists hs. split; [exact Hhs|]. split.
    + intros r row' Hr Hrow'. destruct (decide (r = a)) as [->|Hne].
      * rewrite Hout.
        -- rewrite lookup_insert_eq. congruence.
        -- intros r' Hr' H%row_key_inj; lia.
      * apply Hin; [lia|done].
    + intros key Hkey. rewrite Hout by (intros r Hr; apply Hkey; lia).
      rewrite lookup_insert_ne; [done|]. apply not_eq_sym, Hkey. lia.
Qed.

Lemma check_hex_ok hs ncols rs :
  (forall r, r ∈ rs ->
     exists toks, hs !! row_key r = Some (Py.join " " toks) /\
       Forall (fun t => is_token t = true /\ bad_token t = false) toks /\
       Z.of_nat (length toks) = ncols) ->
  check_hex hs ncols rs = None.
Proof.
  induction rs as [|r rs IH]; intros Hrs; [done|].
  cbn [check_hex].
  destruct (Hrs r ltac:(left)) as (toks & -> & Htoks & Hlen).
  rewrite hex_items_join by (eapply Forall_impl; [exact Htoks|]; by intros ? [? _]).
  rewrite length_fmap, Hlen, Z.eqb_refl. cbn [negb orb].
  assert (existsb bad_token (Py.upper <$> toks) = false) as ->.
  { clear -Htoks. induction Htoks as [|t toks [_ Ht] _ IH]; [done|].
    cbn [fmap list_fmap existsb]. fold (fmap Py.upper toks).
    by rewrite bad_token_upper, Ht, IH. }
  apply IH. intros r' Hr'. apply Hrs. by right.
Qed.

Lemma elem_of_range_from r a n :
  r ∈ range_from a n <-> exists k : nat, r = a + Z.of_nat k /\ (k < Z.to_nat n)%nat.
Proof.
  unfold range_from. rewrite list_elem_of_fmap. split.
  - intros (k & -> & Hk%elem_of_seq). exists k. split; [done|lia].
  - intros (k & -> & Hk). exists k. split; [done|]. apply elem_of_seq. lia.
Qed.

(** *** The favorites written and read back *)

Lemma ordered_go_NoDup l : forall seen,
  NoDup l -> (forall x, x ∈ l -> x ∉ seen) -> ordered_go seen l = l.
Proof.
  induction l as [|h l IH]; intros seen Hnd Hseen; [done|].
  apply NoDup_cons in Hnd as [Hh Hnd]. cbn [ordered_go].
  rewrite bool_decide_eq_false_2 by (apply Hseen; left).
  f_equal. apply IH; [done|].
  intros x Hx. apply not_elem_of_union. split.
  - apply not_elem_of_singleton. intros ->. done.
  - apply Hseen. by right.
Qed.

Lemma fmap_upper_fixed l :
  Forall (fun x => is_color x = true /\ Py.upper x = x) l -> Py.upper <$> l = l.
Proof.
  induction 1 as [|x l [_ Hx] _ IH]; [done|].
  cbn [fmap list_fmap]. fold (fmap Py.upper l). by rewrite Hx, IH.
Qed.

Lemma import_palette_exported cfg colors st :
  NoDup colors ->
  Forall (fun x => is_color x = true /\ Py.upper x = x) colors ->
  cfg !! "palette" = Some {["colors" := Py.join " " (Py.upper <$> colors)]} ->
  import_palette cfg st = (inr Imported, set_palette_hexes colors st).
Proof.
  intros Hnd Hcol Hpal. unfold import_palette. rewrite Hpal.
  rewrite lookup_singleton_eq. cbn [default from_option id].
  rewrite (fmap_upper_fixed _ Hcol).
  assert (Htok : Forall (fun t => is_token t = true) colors).
  { eapply Forall_impl; [exact Hcol|]. intros x [Hx _].
    by apply is_color_token in Hx as [? _]. }
  rewrite strip_join by done.
  destruct colors as [|x colors].
  - reflexivity.
  - rewrite truthy_join by (by inversion Htok).
    rewrite hex_items_join by done. rewrite (fmap_upper_fixed _ Hcol).
    assert (existsb bad_token (x :: colors) = false) as ->.
    { clear -Hcol. induction Hcol as [|y l [Hy _] _ IH]; [done|].
      cbn [existsb]. apply is_color_token in Hy as [_ ->]. exact IH. }
    rewrite run_bind. unfold apply_imported_palette, modify.
    rewrite (fmap_upper_fixed _ Hcol).
    rewrite ordered_go_NoDup; [done|done|]. intros y _. apply not_elem_of_empty.
Qed.

(** ** Export followed by import *)

Lemma import_ini_validated cfg c h sv st :
  import_validated cfg c h sv ->
  import_ini cfg st =
    (update_grid;; import_palette cfg) (import_applied c h sv st).
Proof.
  intros (inputs & hex_sec & Hin & Hhex & Hc & Hh & Hn & Hcr & Hhr & Hlen &
          Hsv & Hck).
  unfold import_ini. rewrite Hin, Hhex, Hc, Hh, Hn.
  cbn [mbind Py.sum_bind mret Py.sum_ret].
  assert (Hb : negb ((MIN_COLS <=? c) && (c <=? MAX_COLS))
               || negb ((0 <=? h) && (h <=? 359))
               || (Z.of_nat (length sv) <? 0)
               || (50 <? Z.of_nat (length sv)) = false).
  { destruct (Z.leb_spec MIN_COLS c); [|lia].
    destruct (Z.leb_spec c MAX_COLS); [|lia].
    destruct (Z.leb_spec 0 h); [|lia]. destruct (Z.leb_spec h 359); [|lia].
    destruct (Z.ltb_spec (Z.of_nat (length sv)) 0); [lia|].
    destruct (Z.ltb_spec 50 (Z.of_nat (length sv))); [lia|]. done. }
  rewrite Hb, Hsv, Hck.
  unfold mbind at 1 2 3 4 5, M_bind at 1 2 3 4 5, modify. cbn [fst snd].
  rewrite for_each_add_row. cbn [fst snd].
  unfold mbind at 2, M_bind at 2, build_grid, modify. cbn [fst snd].
  reflexivity.
Qed.

Lemma export_ini_valid a :
  valid_state a ->
  exists doc,
    export_ini a = inr doc /\
    import_validated doc (cols a) (h_var a) (rows a) /\
    doc !! "palette" =
      Some {["colors" := Py.join " " (Py.upper <$> palette_hexes a)]}.
Proof.
  intros (Hcols & Hh & Hlen & Hsv & _ & _ & xss & Hxss & Hcell & Hcolors).
  destruct (computeMatrix_shape _ _ _ _ Hxss) as (Hrows & Hwidth & _).
  destruct (export_hex_spec xss (cols a) (S (length (rows a))) 0 ∅
              ltac:(lia) Hwidth) as (hs & Hhs & Hin & _).
  unfold export_ini. rewrite Hcell. cbn [from_option mbind Py.sum_bind].
  rewrite Hhs. cbn [mbind Py.sum_bind mret Py.sum_ret].
  eexists. split; [reflexivity|]. split; [|done].
  exists (export_inputs a), hs.
  destruct (export_inputs_head a) as (Hc & Hhv & Hn).
  unfold MIN_COLS, MAX_COLS in *.
  split; [done|]. split; [done|].
  rewrite Hc, Hhv, Hn, !int_of_opt_str by lia.
  repeat split; try lia.
  - apply read_sv_exported; [lia|]. intros j s v Hj.
    destruct (export_rows_lookup (rows a) 2
                (<["rows_count" := Py.str (Z.of_nat (length (rows a)))]>
                   (<["h" := Py.str (h_var a)]>
                      (<["cols" := Py.str (cols a)]> ∅))) j s v ltac:(lia) Hj)
      as [Hs Hv].
    rewrite Forall_forall in Hsv.
    specialize (Hsv (s, v) ltac:(by eapply list_elem_of_lookup_2)).
    simpl in Hsv. unfold export_inputs. repeat split; (done || lia).
  - apply check_hex_ok. intros r (k & -> & Hk)%elem_of_range_from.
    destruct (lookup_lt_is_Some_2 xss k ltac:(lia)) as [row Hrow].
    exists (Py.upper <$> row). split; [|split].
    + replace (1 + Z.of_nat k) with (Z.of_nat k + 1) by lia.
      apply Hin; [lia|done].
    + rewrite Forall_forall in Hcolors.
      specialize (Hcolors row ltac:(by eapply list_elem_of_lookup_2)).
      apply Forall_fmap. eapply Forall_impl; [exact Hcolors|].
      intros x Hx. simpl. rewrite is_token_upper, bad_token_upper.
      by apply is_color_token.
    + rewrite length_fmap, (Hwidth row) by (by eapply list_elem_of_lookup_2).
      lia.
Qed.

(** C2. Export then import reproduces the state. For a valid state [a]
    (columns in [2,360], hue in [0,359], at most 50 rows with S and V in
    [0,100], distinct upper-case [#RRGGBB] favorites, its matrix rendered
    from these inputs as [#rrggbb] cells), [_export_ini] yields a
    document, and [_import_ini] of that document into any state [b]
    succeeds and leaves the columns, the hue, the ordered rows, the
    ordered favorites and the matrix of [a]. *)
Theorem export_import_round_trip (a b : PaletteApp) :
  valid_state a ->
  exists doc b',
    export_ini a = inr doc /\
    import_ini doc b = (inr Imported, b') /\
    cols b' = cols a /\ h_var b' = h_var a /\ rows b' = rows a /\
    palette_hexes b' = palette_hexes a /\ cell_hex b' = cell_hex a.
Proof.
  intros Hvalid.
  destruct (export_ini_valid a Hvalid) as (doc & Hexp & Hval & Hpal).
  destruct Hvalid as (Hcols & _ & _ & _ & Hnd & Hfav & xss & Hxss & Hcell & _).
  exists doc. eexists. split; [exact Hexp|].
  rewrite (import_ini_validated _ _ _ _ b Hval).
  pose proof (rebuild_computeMatrix
    (mkApp (cols a) (h_var a) (rows a) None (palette_hexes b) (palette_hex_set b)))
    as Hrun.
  cbn [cols h_var rows] in Hrun. rewrite Hxss in Hrun.
  unfold MIN_COLS in Hcols. specialize (Hrun ltac:(lia)).
  change ((build_grid;; update_grid) _)
    with (update_grid (import_applied (cols a) (h_var a) (rows a) b)) in Hrun.
  rewrite run_bind, Hrun.
  rewrite (import_palette_exported doc (palette_hexes a)) by done.
  split; [reflexivity|]. by rewrite Hcell.
Qed.

Lemma export_import_round_trip_witness :
  let a := mkApp 3 200 [(85, 85); (40, 70)]
    (Some [[Some "#00aaff"; Some "#ff00aa"; Some "#aaff00"];
           [Some "#219bd9"; Some "#d9219b"; Some "#9bd921"];
           [Some "#6b9bb2"; Some "#b26b9b"; Some "#9bb26b"]])
    ["#00AAFF"; "#ABCDEF"] {["#00AAFF"; "#ABCDEF"]} in
  let b := mkApp 7 25 [(10, 10)] None ["#123456"] {["#123456"]} in
  exists doc b',
    export_ini a = inr doc /\
    import_ini doc b = (inr Imported, b') /\
    cols b' = 3 /\ h_var b' = 200 /\ rows b' = [(85, 85); (40, 70)] /\
    palette_hexes b' = ["#00AAFF"; "#ABCDEF"] /\ cell_hex b' = cell_hex a.
Proof.
  intros a b. apply (export_import_round_trip a b).
  unfold valid_state, MIN_COLS, MAX_COLS. simpl.
  split; [lia|]. split; [lia|]. split; [lia|].
  split; [repeat constructor; simpl; lia|].
  split; [apply (bool_decide_unpack _); vm_compute; exact I|].
  split; [repeat constructor|].
  exists [["#00aaff"; "#ff00aa"; "#aaff00"];
          ["#219bd9"; "#d9219b"; "#9bd921"];
          ["#6b9bb2"; "#b26b9b"; "#9bb26b"]].
  split; [vm_compute; reflexivity|]. split; [reflexivity|].
  repeat constructor.
Defined.

(** ** [hsv_to_hex]: the string built from the channels *)

Lemma format_02x_byte r :
  0 <= r <= 255 ->
  exists a b,
    Py.format_02x r = String a (String b EmptyString) /\
    is_lower_hex a = true /\ is_lower_hex b = true /\
    Py.int_of 16 (String a (String b EmptyString)) = Some r.
Proof.
  intros Hr.
  assert (Hall : forallb byte_ok (Z.of_nat <$> seq 0 256) = true)
    by (vm_compute; reflexivity).
  rewrite forallb_forall in Hall.
  specialize (Hall r). unfold byte_ok in Hall.
  destruct (Py.format_02x r) as [|a [|b [|]]];
    try (discriminate Hall; apply list_elem_of_In, list_elem_of_fmap;
         exists (Z.to_nat r); split; [lia | apply elem_of_seq; lia]).
  exists a, b.
  assert (Hin : In r (Z.of_nat <$> seq 0 256)).
  { apply list_elem_of_In, list_elem_of_fmap.
    exists (Z.to_nat r). split; [lia | apply elem_of_seq; lia]. }
  apply Hall in Hin.
  apply andb_true_iff in Hin as [[Ha Hb]%andb_true_iff Hint%bool_decide_eq_true].
  done.
Qed.

Lemma is_lower_hex_digit c : is_lower_hex c = true -> is_hex_digit c = true.
Proof. unfold is_lower_hex, is_hex_digit. by destruct (Py.digit_in 16 c). Qed.

(** What [hsv_to_hex] writes for channels in [0,255]: ['#'] and six
    lower-case hexadecimal digits, seven characters in all, which
    [hex_to_rgb_tuple] reads back as the same three channels. *)
Theorem format_hex_reads_back (r g b : Z) :
  0 <= r <= 255 -> 0 <= g <= 255 -> 0 <= b <= 255 ->
  String.length (format_hex r g b) = 7%nat /\
  is_color (format_hex r g b) = true /\
  all_lower_hex (Py.drop 1 (format_hex r g b)) = true /\
  hex_to_rgb_tuple (format_hex r g b) = inr (r, g, b).
Proof.
  intros Hr Hg Hb. unfold format_hex.
  destruct (format_02x_byte r Hr) as (r1 & r2 & -> & Hr1 & Hr2 & Hri).
  destruct (format_02x_byte g Hg) as (g1 & g2 & -> & Hg1 & Hg2 & Hgi).
  destruct (format_02x_byte b Hb) as (b1 & b2 & -> & Hb1 & Hb2 & Hbi).
  rewrite !string_app_cons, !string_app_nil_l.
  split; [reflexivity|]. split; [|split].
  - simpl. unfold hex6. simpl.
    by rewrite !is_lower_hex_digit.
  - simpl. by rewrite Hr1, Hr2, Hg1, Hg2, Hb1, Hb2.
  - unfold hex_to_rgb_tuple. cbn [Py.lstrip_hash].
    destruct (ascii_dec "#" "#"); [|done].
    destruct (ascii_dec r1 "#") as [->|_]; [discriminate Hr1|].
    change (Py.slice 0 (0 + 2) _) with (String r1 (String r2 EmptyString)).
    change (Py.slice 2 (2 + 2) _) with (String g1 (String g2 EmptyString)).
    change (Py.slice 4 (4 + 2) _) with (String b1 (String b2 EmptyString)).
    by rewrite Hri, Hgi, Hbi.
Qed.

Lemma format_hex_reads_back_witness :
  format_hex 217 109 33 = "#d96d21" /\
  hex_to_rgb_tuple (format_hex 217 109 33) = inr (217, 109, 33).
Proof.
  destruct (format_hex_reads_back 217 109 33) as (_ & _ & _ & H); [lia..|].
  split; [reflexivity | exact H].
Defined.

(** [hsv_to_hex] is not total: a hue that is NaN or infinite raises
    [ValueError] once the saturation is not zero, and an integer
    saturation or value too large for a float raises [OverflowError]
    where a clamp to 100 would be expected. *)
Example hsv_to_hex_raises :
  hsv_to_hex (Py.Float nan) (Py.Int 50) (Py.Int 50) = inl Py.ValueError /\
  hsv_to_hex (Py.Float infinity) (Py.Int 50) (Py.Int 50) = inl Py.ValueError /\
  hsv_to_hex (Py.Int 0) (Py.Int (10 ^ 400)) (Py.Int 50) = inl Py.OverflowError /\
  hsv_to_hex (Py.Int 0) (Py.Int 50) (Py.Int (10 ^ 400)) = inl Py.OverflowError /\
  hsv_to_hex (Py.Int (- 30)) (Py.Int 150) (Py.Int (- 5)) = inr "#000000" /\
  hsv_to_hex (Py.Int 400) (Py.Int 150) (Py.Int 250) = inr "#ffaa00".
Proof. vm_compute. by repeat split. Qed.

(** ** Import: what a rejection leaves behind *)

Lemma import_palette_result cfg st r st' :
  import_palette cfg st = (inr r, st') ->
  r = Imported \/ (r = Rejected BadPalette /\ st' = st).
Proof.
  unfold import_palette. destruct (cfg !! "palette") as [pal|].
  - destruct (Py.truthy _).
    + destruct (existsb _ _).
      * intros [= <- <-]. by right.
      * rewrite run_bind. unfold apply_imported_palette, modify.
        intros [= <- _]. by left.
    + rewrite run_bind. unfold apply_imported_palette, modify.
      intros [= <- _]. by left.
  - intros [= <- _]. by left.
Qed.

(** Every rejection of [_import_ini] but the one for the palette leaves
    the state as it was. *)
Theorem import_rejection_keeps_state (cfg : ConfigParser) (st st' : PaletteApp)
    (e : import_error) :
  import_ini cfg st = (inr (Rejected e), st') ->
  e <> BadPalette -> st' = st.
Proof.
  intros Himp He.
  destruct (import_ini_cases cfg st) as [(e' & Hrej & _)|(c & h & sv & _ & Hrun)].
  - rewrite Hrej in Himp. by injection Himp as _ <-.
  - rewrite Hrun, run_bind in Himp.
    destruct (update_grid _) as [[?|[]] st1]; [discriminate|].
    apply import_palette_result in Himp as [?|[[= ->] _]]; done.
Qed.

Lemma import_rejection_keeps_state_witness :
  let doc := make_doc
    [("inputs", [("cols", "4"); ("h", "10"); ("rows_count", "0")]);
     ("hex", [("row1", "#FF0000 #00FF00 #0000FF")])] in
  let st := mkApp 7 25 [(85, 85)] None ["#ABCDEF"] {["#ABCDEF"]} in
  snd (import_ini doc st) = st.
Proof.
  intros doc st.
  apply (import_rejection_keeps_state doc st (snd (import_ini doc st))
           (BadHexRow "row1")); [vm_compute; reflexivity | discriminate].
Defined.

Lemma palette_add_color_in_sync_witness :
  palette_add_color "#abcdef" (mkApp 7 25 [] None ["#FF0000"] {["#FF0000"]}) =
    (inr tt, mkApp 7 25 [] None ["#FF0000"; "#ABCDEF"] {["#ABCDEF"; "#FF0000"]}).
Proof.
  rewrite (palette_add_color_in_sync "#abcdef"
             (mkApp 7 25 [] None ["#FF0000"] {["#FF0000"]})).
  - vm_compute. reflexivity.
  - simpl. intros x ->%elem_of_singleton. by left.
  - reflexivity.
Defined.

Lemma import_blank_palette_clears_witness :
  let doc := make_doc
    [("inputs", [("cols", "2"); ("h", "0"); ("rows_count", "0")]);
     ("hex", [("row1", "#FF0000 #00FFFF")]);
     ("palette", [("colors", "  ")])] in
  let st := mkApp 7 25 [(85, 85)] None ["#ABCDEF"] {["#ABCDEF"]} in
  palette_hexes (snd (import_ini doc st)) = [].
Proof.
  intros doc st.
  apply (import_blank_palette_clears doc (list_to_map [("colors", "  ")]) st
           (snd (import_ini doc st))); vm_compute; reflexivity.
Defined.

(** ** Favorites: removal, replacement, and what every operation keeps *)

Lemma ordered_go_elem l : forall seen x,
  x ∈ ordered_go seen l <-> x ∈ l /\ x ∉ seen.
Proof.
  induction l as [|h l IH]; intros seen x; simpl.
  - set_solver.
  - case_bool_decide as Hh.
    + rewrite IH. set_solver.
    + rewrite elem_of_cons, IH. split.
      * intros [->|[Hx Hs]]; [set_solver|]. split; set_solver.
      * intros [[->|Hx]%elem_of_cons Hs]; [by left|].
        destruct (decide (x = h)) as [->|Hne]; [by left|].
        right. split; set_solver.
Qed.

Lemma ordered_go_NoDup_out l : forall seen, NoDup (ordered_go seen l).
Proof.
  induction l as [|h l IH]; intros seen; simpl; [constructor|].
  case_bool_decide; [apply IH|].
  constructor; [|apply IH]. rewrite ordered_go_elem. set_solver.
Qed.

Lemma ordered_go_sublist l : forall seen, ordered_go seen l `sublist_of` l.
Proof.
  induction l as [|h l IH]; intros seen; simpl; [done|].
  case_bool_decide; [apply sublist_cons | apply sublist_skip]; apply IH.
Qed.

Lemma ordered_go_snoc l : forall seen x,
  ordered_go seen (l ++ [x]) =
    ordered_go seen l ++
      (if bool_decide (x ∈ seen \/ x ∈ l) then [] else [x]).
Proof.
  induction l as [|h l IH]; intros seen x; simpl.
  - case_bool_decide as H1; case_bool_decide as H2; set_solver.
  - case_bool_decide as Hh; simpl; rewrite IH; f_equal; try f_equal;
      case_bool_decide as H1; case_bool_decide as H2; set_solver.
Qed.

Lemma upper_fixed_fmap l :
  Forall (fun x => Py.upper x = x) l -> Py.upper <$> l = l.
Proof.
  induction 1 as [|x l Hx _ IH]; [done|].
  cbn [fmap list_fmap]. fold (fmap Py.upper l). by rewrite Hx, IH.
Qed.

Lemma filter_upper_elem u l x :
  x ∈ List.filter (fun h => negb (bool_decide (Py.upper h = u))) l <->
  x ∈ l /\ Py.upper x <> u.
Proof.
  rewrite !list_elem_of_In, filter_In, negb_true_iff, bool_decide_eq_false.
  done.
Qed.

Lemma filter_upper_absent u l :
  u ∉ Py.upper <$> l ->
  List.filter (fun h => negb (bool_decide (Py.upper h = u))) l = l.
Proof.
  induction l as [|h l IH]; intros Hu; [done|]. simpl.
  rewrite fmap_cons, not_elem_of_cons in Hu. destruct Hu as [Hh Hu].
  rewrite bool_decide_eq_false_2 by done. simpl. by rewrite IH.
Qed.

Lemma filter_sublist {A} (f : A -> bool) l : List.filter f l `sublist_of` l.
Proof.
  induction l as [|h l IH]; simpl; [done|].
  destruct (f h); [by apply sublist_skip | by apply sublist_cons].
Qed.

Lemma in_sync_absent st u :
  fav_in_sync st -> Py.upper u = u -> u ∉ Py.upper <$> palette_hexes st ->
  u ∉ palette_hex_set st.
Proof.
  intros Hs Hu Hn Hin. apply Hn, list_elem_of_fmap.
  exists u. split; [done|]. by apply Hs.
Qed.

(** [_apply_imported_palette] keeps the first occurrence of each
    upper-cased item, in order: the new favorites have no duplicate, hold
    exactly the upper-cased items, and reading one more item appends it
    unless an earlier item equals it ignoring case.  The membership set is
    not rebuilt. *)
Theorem apply_imported_palette_first_seen (items : list string)
    (st : PaletteApp) :
  let favorites l := palette_hexes (snd (apply_imported_palette l st)) in
  fst (apply_imported_palette items st) = inr tt /\
  favorites [] = [] /\
  NoDup (favorites items) /\
  (forall x, x ∈ favorites items <-> x ∈ Py.upper <$> items) /\
  (forall x, favorites (items ++ [x]) =
     favorites items ++
       (if bool_decide (Py.upper x ∈ Py.upper <$> items) then []
        else [Py.upper x])) /\
  palette_hex_set (snd (apply_imported_palette items st)) = palette_hex_set st.
Proof.
  simpl. split; [done|]. split; [done|].
  split; [apply ordered_go_NoDup_out|].
  split; [intros x; rewrite ordered_go_elem; set_solver|].
  split; [|done].
  intros x. rewrite fmap_app. simpl. rewrite ordered_go_snoc.
  f_equal. case_bool_decide as H1; case_bool_decide as H2; set_solver.
Qed.

(** [_palette_remove_ctx] deletes every favorite equal to the target once
    upper-cased and keeps the others in their order; the target leaves the
    membership set; when no favorite matches (and the set is in sync) the
    state is unchanged. *)
Theorem palette_remove_ctx_removes (hex : string) (st : PaletteApp) :
  Py.truthy hex = true ->
  let st' := snd (palette_remove_ctx hex st) in
  fst (palette_remove_ctx hex st) = inr tt /\
  (forall x, x ∈ palette_hexes st' <->
             x ∈ palette_hexes st /\ Py.upper x <> Py.upper hex) /\
  (palette_hexes st' `sublist_of` palette_hexes st) /\
  (Py.upper hex ∉ palette_hex_set st') /\
  (fav_in_sync st -> Py.upper hex ∉ Py.upper <$> palette_hexes st ->
   st' = st).
Proof.
  intros Ht. unfold palette_remove_ctx. rewrite Ht. simpl.
  split; [done|]. split; [apply filter_upper_elem|].
  split; [apply filter_sublist|]. split; [set_solver|].
  intros Hs Hn. rewrite filter_upper_absent by done.
  pose proof (in_sync_absent st (Py.upper hex) Hs (upper_idem hex) Hn) as Hset.
  destruct st as [c h r m l S].
  unfold set_palette_hexes, set_palette_hex_set. simpl in *. f_equal.
  apply leibniz_equiv. set_solver.
Qed.

Lemma palette_remove_ctx_removes_witness :
  let st := mkApp 7 25 [] None ["#FF0000"; "#00FF00"] {[ "#FF0000"; "#00FF00" ]} in
  (palette_hexes (snd (palette_remove_ctx "#ff0000" st)))
    `sublist_of` (palette_hexes st).
Proof.
  intros st.
  exact (proj1 (proj2 (proj2
    (palette_remove_ctx_removes "#ff0000" st eq_refl)))).
Defined.

(** Adding a colour that is not among the favorites and then removing it,
    in whatever case either is written, gives back the state it started
    from: list, order and membership set. *)
Theorem palette_add_then_remove (hex hex' : string) (st : PaletteApp) :
  fav_in_sync st ->
  Py.truthy hex = true -> Py.truthy hex' = true ->
  Py.upper hex' = Py.upper hex ->
  Py.upper hex ∉ Py.upper <$> palette_hexes st ->
  snd (palette_remove_ctx hex' (snd (palette_add_color hex st))) = st.
Proof.
  intros Hs Ht Ht' Hu Hn.
  pose proof (in_sync_absent st (Py.upper hex) Hs (upper_idem hex) Hn) as Hset.
  unfold palette_add_color.
  unfold mbind at 1, M_bind at 1, get. simpl. rewrite Ht. simpl.
  rewrite bool_decide_eq_false_2 by done.
  rewrite bool_decide_eq_false_2 by done.
  unfold palette_remove_ctx. rewrite Ht', Hu. simpl.
  rewrite List.filter_app. simpl.
  rewrite upper_idem, bool_decide_eq_true_2 by done. simpl.
  rewrite filter_upper_absent, app_nil_r by done.
  destruct st as [c h r m l S].
  unfold set_palette_hexes, set_palette_hex_set. simpl in *. f_equal.
  apply leibniz_equiv. set_solver.
Qed.

Lemma palette_add_then_remove_witness :
  let st := mkApp 7 25 [(85, 85)] None ["#00FF00"] {[ "#00FF00" ]} in
  snd (palette_remove_ctx "#FF0000" (snd (palette_add_color "#ff0000" st))) = st.
Proof.
  intros st. apply (palette_add_then_remove "#ff0000" "#FF0000" st).
  - intros x Hx. simpl in Hx. apply elem_of_singleton in Hx as ->.
    by apply list_elem_of_singleton.
  - reflexivity.
  - reflexivity.
  - reflexivity.
  - vm_compute. intros Hx. apply list_elem_of_singleton in Hx. discriminate.
Defined.

Lemma run_fav_op_unique op st :
  fav_unique st -> fav_unique (snd (run_fav_op op st)).
Proof.
  intros [Hnd Hup]. destruct op as [hex|hex|items]; simpl.
  - unfold palette_add_color, mbind, M_bind, get. simpl.
    destruct (Py.truthy hex); simpl; [|done].
    case_bool_decide as Hin; [done|].
    case_bool_decide as Hset; [done|]. simpl.
    rewrite (upper_fixed_fmap _ Hup) in Hin. split; simpl.
    + apply NoDup_app. split; [done|]. split; [|apply NoDup_singleton].
      intros x Hx ->%list_elem_of_singleton. done.
    + apply Forall_app. split; [done|].
      apply Forall_singleton, upper_idem.
  - unfold palette_remove_ctx.
    destruct (Py.truthy hex); simpl; [|done]. split; simpl.
    + eapply sublist_NoDup; [done|apply filter_sublist].
    + apply Forall_forall. intros x [Hx _]%filter_upper_elem.
      rewrite Forall_forall in Hup. by apply Hup.
  - split; simpl; [apply ordered_go_NoDup_out|].
    apply Forall_forall. intros x [Hx _]%ordered_go_elem.
    apply list_elem_of_fmap in Hx as (y & -> & _). apply upper_idem.
Qed.

Lemma run_fav_op_in_sync op st :
  is_replace_all op = false -> fav_unique st ->
  fav_in_sync st -> fav_in_sync (snd (run_fav_op op st)).
Proof.
  intros Hop [_ Hup] Hs. destruct op as [hex|hex|items]; simpl; [| |done].
  - unfold palette_add_color, mbind, M_bind, get. simpl.
    destruct (Py.truthy hex); simpl; [|done].
    case_bool_decide as Hin; [done|].
    case_bool_decide as Hset; [done|]. simpl.
    intros x. simpl. rewrite elem_of_union, elem_of_singleton, elem_of_app.
    intros [->|Hx]; [right; by apply list_elem_of_singleton|].
    left. by apply Hs.
  - unfold palette_remove_ctx.
    destruct (Py.truthy hex); simpl; [|done].
    intros x. simpl. rewrite elem_of_difference, elem_of_singleton.
    intros [Hx Hne]. apply filter_upper_elem.
    apply Hs in Hx. split; [done|].
    rewrite Forall_forall in Hup. by rewrite (Hup x Hx).
Qed.

Lemma run_fav_op_returns op st : fst (run_fav_op op st) = inr tt.
Proof.
  destruct op as [hex|hex|items]; simpl; [| |done].
  - unfold palette_add_color, mbind, M_bind, get. simpl.
    destruct (Py.truthy hex); simpl; [|done].
    case_bool_decide; [done|]. by case_bool_decide.
  - unfold palette_remove_ctx. by destruct (Py.truthy hex).
Qed.

(** Whatever favorites operations run in whatever order (add, remove,
    replacement by an imported list), none raises, and the favorites stay
    upper-case and free of duplicates.  As long as no replacement is among
    them, the membership set also stays within the list. *)
Theorem favorites_stay_unique (ops : list fav_op) (st : PaletteApp) :
  fav_unique st ->
  Forall (fun op => forall a, fst (run_fav_op op a) = inr tt) ops /\
  fav_unique (run_fav_ops ops st) /\
  (forallb (fun op => negb (is_replace_all op)) ops = true ->
   fav_in_sync st -> fav_in_sync (run_fav_ops ops st)).
Proof.
  intros Hu. split.
  { apply Forall_forall. intros op _ a. apply run_fav_op_returns. }
  revert st Hu. induction ops as [|op ops IH]; intros st Hu; [done|].
  cbn [run_fav_ops foldl forallb]. fold (run_fav_ops ops).
  pose proof (run_fav_op_unique op st Hu) as Hu'.
  destruct (IH _ Hu') as [IH1 IH2]. split; [done|].
  intros [Hop Hops]%andb_true_iff Hs. apply IH2; [done|].
  apply run_fav_op_in_sync; [|done..]. by apply negb_true_iff.
Qed.

Lemma favorites_stay_unique_witness :
  let st := mkApp 7 25 [] None ["#00FF00"] {[ "#00FF00" ]} in
  fav_unique
    (run_fav_ops [FavAdd "#ff0000"; FavReplaceAll ["#abcdef"; "#ABCDEF"];
                  FavRemove "#AbCdEf"; FavAdd "#00ff00"] st).
Proof.
  intros st.
  refine (proj1 (proj2 (favorites_stay_unique _ st _))).
  split; simpl.
  - apply NoDup_singleton.
  - by apply Forall_singleton.
Defined.

(** ** Import: what a successful import leaves *)

Lemma read_sv_in_range inputs idx : forall sv,
  read_sv inputs idx = inr sv ->
  Forall (fun sv : Z * Z => 0 <= sv.1 <= 100 /\ 0 <= sv.2 <= 100) sv.
Proof.
  induction idx as [|i idx IH]; intros sv Hsv; simpl in Hsv.
  - injection Hsv as <-. constructor.
  - destruct (_ ≫= _) as [?|[s v]]; [discriminate|].
    destruct (_ && _) eqn:Hr; [|discriminate].
    destruct (read_sv inputs idx) as [?|sv'] eqn:Hsv'; [discriminate|].
    injection Hsv as <-. constructor; [|by apply IH].
    simpl. lia.
Qed.

Lemma import_palette_frame cfg st r st' :
  import_palette cfg st = (r, st') ->
  cols st' = cols st /\ h_var st' = h_var st /\ rows st' = rows st /\
  cell_hex st' = cell_hex st /\ palette_hex_set st' = palette_hex_set st.
Proof.
  unfold import_palette. intros H.
  destruct (cfg !! "palette") as [palette|]; [|by injection H as _ <-].
  destruct (Py.truthy _); [|by injection H as _ <-].
  destruct (existsb _ _); by injection H as _ <-.
Qed.

Lemma import_palette_section cfg1 cfg2 :
  cfg1 !! "palette" = cfg2 !! "palette" ->
  import_palette cfg1 = import_palette cfg2.
Proof. intros H. unfold import_palette. by rewrite H. Qed.

Lemma import_ini_imported cfg st st' :
  import_ini cfg st = (inr Imported, st') ->
  exists c h sv xss,
    import_validated cfg c h sv /\
    computeMatrix c h sv = inr xss /\
    import_palette cfg
      (set_cell_hex (Some (filled xss)) (import_applied c h sv st)) =
      (inr Imported, st').
Proof.
  intros Himp.
  destruct (import_ini_cases cfg st) as [(e & He & _)|(c & h & sv & Hval & Hrun)].
  { rewrite He in Himp. discriminate. }
  exists c, h, sv.
  pose proof (rebuild_computeMatrix
    (mkApp c h sv None (palette_hexes st) (palette_hex_set st))) as Hreb.
  cbn [cols h_var rows] in Hreb.
  destruct Hval as (inputs & hex_sec & Hi & Hh & Hc & Hhue & Hn & Hcr & Hrest).
  unfold MIN_COLS in Hcr. specialize (Hreb ltac:(lia)).
  change ((build_grid;; update_grid) _)
    with (update_grid (import_applied c h sv st)) in Hreb.
  rewrite Hrun, run_bind in Himp.
  destruct (computeMatrix c h sv) as [e|xss].
  { destruct Hreb as [e' He']. destruct (update_grid _) as [[?|[]] ?];
      [discriminate|]. simpl in He'. discriminate. }
  exists xss. rewrite Hreb in Himp.
  split; [|done]. exists inputs, hex_sec. unfold MIN_COLS. tauto.
Qed.

(** A successful [_import_ini] leaves what the [inputs] section says and
    nothing out of range: columns in [2,360], hue in [0,359], at most 50
    rows, each S and V in [0,100]; and the matrix is the one computed from
    these values. *)
Theorem import_success_in_range (cfg : ConfigParser) (st st' : PaletteApp) :
  import_ini cfg st = (inr Imported, st') ->
  MIN_COLS <= cols st' <= MAX_COLS /\ 0 <= h_var st' <= 359 /\
  (length (rows st') <= 50)%nat /\
  Forall (fun sv : Z * Z => 0 <= sv.1 <= 100 /\ 0 <= sv.2 <= 100) (rows st') /\
  (exists inputs,
     cfg !! "inputs" = Some inputs /\
     Py.int_of_opt (inputs !! "cols") = inr (cols st') /\
     Py.int_of_opt (inputs !! "h") = inr (h_var st') /\
     Py.int_of_opt (inputs !! "rows_count") =
       inr (Z.of_nat (length (rows st')))) /\
  exists xss,
    computeMatrix (cols st') (h_var st') (rows st') = inr xss /\
    cell_hex st' = Some (filled xss).
Proof.
  intros Himp.
  destruct (import_ini_imported _ _ _ Himp) as (c & h & sv & xss & Hval & Hm & Hpal).
  apply import_palette_frame in Hpal as (-> & -> & -> & -> & _). simpl.
  destruct Hval as (inputs & hex_sec & Hi & Hh & Hc & Hhue & Hn & Hcr & Hhr & Hlen
                    & Hsv & _).
  split; [done|]. split; [done|]. split; [done|].
  split; [by apply (read_sv_in_range _ _ _ Hsv)|].
  split; [by exists inputs|]. by exists xss.
Qed.

Lemma import_success_in_range_witness :
  let doc := make_doc
    [("inputs", [("cols", "2"); ("h", "0"); ("rows_count", "1");
                 ("row2_s", "50"); ("row2_v", "60")]);
     ("hex", [("row1", "#FF0000 #00FFFF"); ("row2", "#000000 #000000")])] in
  let st := mkApp 7 25 [(85, 85)] None ["#ABCDEF"] {["#ABCDEF"]} in
  (length (rows (snd (import_ini doc st))) <= 50)%nat.
Proof.
  intros doc st.
  refine (proj1 (proj2 (proj2
    (import_success_in_range doc st (snd (import_ini doc st)) _)))).
  vm_compute. reflexivity.
Defined.

(** [_import_ini] reads the [hex] section for its shape only: two
    documents with the same [inputs] and [palette] sections that are both
    imported leave the same state, whatever colours their [hex] sections
    list. *)
Theorem import_ignores_hex_colours (cfg1 cfg2 : ConfigParser)
    (st st1 st2 : PaletteApp) :
  cfg1 !! "inputs" = cfg2 !! "inputs" ->
  cfg1 !! "palette" = cfg2 !! "palette" ->
  import_ini cfg1 st = (inr Imported, st1) ->
  import_ini cfg2 st = (inr Imported, st2) ->
  st1 = st2.
Proof.
  intros Hin Hpal H1 H2.
  destruct (import_ini_imported _ _ _ H1) as (c & h & sv & xss & Hv1 & Hm1 & Hp1).
  destruct (import_ini_imported _ _ _ H2) as (c' & h' & sv' & xss' & Hv2 & Hm2 & Hp2).
  destruct Hv1 as (i1 & x1 & Hi1 & _ & Hc1 & Hh1 & Hn1 & _ & _ & _ & Hsv1 & _).
  destruct Hv2 as (i2 & x2 & Hi2 & _ & Hc2 & Hh2 & Hn2 & _ & _ & _ & Hsv2 & _).
  rewrite Hin, Hi2 in Hi1. injection Hi1 as <-.
  assert (c' = c) as -> by congruence.
  assert (h' = h) as -> by congruence.
  assert (Z.of_nat (length sv') = Z.of_nat (length sv)) as Hlen by congruence.
  rewrite Hlen in Hsv2.
  assert (sv' = sv) as -> by congruence.
  assert (xss' = xss) as -> by congruence.
  rewrite (import_palette_section _ _ Hpal) in Hp1. congruence.
Qed.

Lemma import_ignores_hex_colours_witness :
  let doc1 := make_doc
    [("inputs", [("cols", "2"); ("h", "0"); ("rows_count", "0")]);
     ("hex", [("row1", "#FF0000 #00FFFF")])] in
  let doc2 := make_doc
    [("inputs", [("cols", "2"); ("h", "0"); ("rows_count", "0")]);
     ("hex", [("row1", "#123456 #ZZZZZZ")])] in
  let st := mkApp 7 25 [(85, 85)] None ["#ABCDEF"] {["#ABCDEF"]} in
  snd (import_ini doc1 st) = snd (import_ini doc2 st).
Proof.
  intros doc1 doc2 st.
  apply (import_ignores_hex_colours doc1 doc2 st);
    vm_compute; reflexivity.
Defined.

(** ** Live input: what every handler keeps *)



Lemma same_inputs_sym a b : same_inputs a b -> same_inputs b a.
Proof. intros (? & ? & ? & ? & ?). by repeat split. Qed.

Lemma clamp_bounds lo hi v : lo <= hi -> lo <= clamp lo hi v <= hi.
Proof. unfold clamp. lia. Qed.


Lemma on_add_row_click_inputs st :
  same_inputs
    (set_rows (rows st ++ [(add_row_default (rows st), add_row_default (rows st))]) st)
    (snd (on_add_row_click st)).
Proof.
  unfold on_add_row_click. rewrite run_get, run_bind.
  apply (paints_only_rebuild _).
Qed.

Lemma remove_row_inputs idx st :
  match rows st !! idx with
  | Some _ => same_inputs (set_rows (delete idx (rows st)) st) (snd (remove_row idx st))
  | None => remove_row idx st = (inl Py.IndexError, st)
  end.
Proof.
  unfold remove_row. rewrite run_get.
  destruct (rows st !! idx); [|done].
  rewrite run_bind. apply (paints_only_rebuild _).
Qed.

Lemma drag_end_inputs start i st :
  snd (drag_end start i st) = st \/
  exists row,
    rows st !! start = Some row /\
    same_inputs
      (set_rows (list_insert_at (resolved_index start i) row (delete start (rows st))) st)
      (snd (drag_end start i st)).
Proof.
  unfold drag_end. destruct (_ || _); [by left|].
  rewrite run_get, run_bind.
  destruct (rows st !! start) as [row|] eqn:Hrow; [|by left].
  right. exists row. split; [done|]. simpl.
  rewrite run_bind. simpl. rewrite run_bind. simpl.
  apply (paints_only_rebuild _).
Qed.

Lemma on_cols_change_inputs typed st :
  same_inputs
    (set_cols (clamp MIN_COLS MAX_COLS (default (cols st) typed)) st)
    (snd (on_cols_change typed st)).
Proof.
  unfold on_cols_change. rewrite run_get, run_bind.
  case_bool_decide as Hv.
  - simpl.
    match goal with |- same_inputs ?a (snd (update_grid ?b)) =>
      apply (same_inputs_trans a b); [by repeat split|] end.
    apply paints_only_update_grid.
  - simpl.
    match goal with |- same_inputs ?a (snd (update_grid ?b)) =>
      apply (same_inputs_trans a b); [|apply paints_only_update_grid] end.
    destruct st; repeat split; simpl in *; done.
Qed.

Lemma on_h_scale_inputs value st :
  exists iv,
    same_inputs (set_h_var (clamp 0 359 iv) st) (snd (on_h_scale value st)).
Proof.
  unfold on_h_scale. rewrite run_get. eexists. rewrite run_bind. simpl.
  apply paints_only_update_grid.
Qed.

Lemma clamp_h_inputs typed st :
  exists v,
    same_inputs (set_h_var (clamp 0 359 v) st) (snd (clamp_h typed st)).
Proof.
  unfold clamp_h. eexists. rewrite run_bind. simpl.
  apply paints_only_update_grid.
Qed.

Lemma hsvvar_on_scale_inputs i ch value st :
  snd (hsvvar_on_scale i ch value st) = st \/
  exists sv f z,
    rows st !! i = Some sv /\ value = Some f /\ Py.round f = inr z /\
    same_inputs (set_rows (<[i := chan_set ch z sv]> (rows st)) st)
      (snd (hsvvar_on_scale i ch value st)).
Proof.
  unfold hsvvar_on_scale. rewrite run_get.
  destruct (rows st !! i) as [sv|] eqn:Hsv; [|by left].
  rewrite run_bind. destruct value as [f|]; [|by left]. simpl.
  rewrite run_bind. simpl.
  destruct (Py.round f) as [e|z] eqn:Hz; [by left|].
  right. exists sv, f, z. split; [done|]. split; [done|]. split; [done|].
  rewrite run_bind. simpl. apply paints_only_update_grid.
Qed.

Lemma hsvvar_on_entry_inputs i ch text st :
  snd (hsvvar_on_entry i ch text st) = st \/
  exists sv v,
    rows st !! i = Some sv /\
    same_inputs (set_rows (<[i := chan_set ch (clamp 0 100 v) sv]> (rows st)) st)
      (snd (hsvvar_on_entry i ch text st)).
Proof.
  unfold hsvvar_on_entry. rewrite run_get.
  destruct (rows st !! i) as [sv|] eqn:Hsv; [|by left].
  rewrite run_bind.
  match goal with |- context [lift ?r st] => destruct r as [e|v] end;
    [by left|].
  right. exists sv, v. split; [done|]. simpl. rewrite run_bind. simpl.
  apply paints_only_update_grid.
Qed.











(** Row, column and hue handlers never touch the favorites: the list and
    the membership set are after the handler what they were before it,
    also when the handler raises. *)
Theorem other_handlers_keep_favorites (ev : event) (st : PaletteApp) :
  touches_favorites ev = false ->
  palette_hexes (snd (handle ev st)) = palette_hexes st /\
  palette_hex_set (snd (handle ev st)) = palette_hex_set st.
Proof.
  intros Hev.
  assert (forall st', same_inputs st' (snd (handle ev st)) ->
            palette_hexes st' = palette_hexes st ->
            palette_hex_set st' = palette_hex_set st ->
            palette_hexes (snd (handle ev st)) = palette_hexes st /\
            palette_hex_set (snd (handle ev st)) = palette_hex_set st) as Hvia.
  { intros st' (_ & _ & _ & <- & <-) ? ?. done. }
  destruct ev as [|idx|start i|typed|value|typed|i ch value|i ch text|cfg|hex|hex];
    try discriminate; cbn [handle].
  - by eapply Hvia; [apply on_add_row_click_inputs|..].
  - pose proof (remove_row_inputs idx st) as H.
    destruct (rows st !! idx); [|by rewrite H].
    by eapply Hvia; [exact H|..].
  - destruct (drag_end_inputs start i st) as [->|(row & _ & H)]; [done|].
    by eapply Hvia; [exact H|..].
  - by eapply Hvia; [apply on_cols_change_inputs|..].
  - destruct (on_h_scale_inputs value st) as [iv H].
    by eapply Hvia; [exact H|..].
  - destruct (clamp_h_inputs typed st) as [v H].
    by eapply Hvia; [exact H|..].
  - destruct (hsvvar_on_scale_inputs i ch value st)
      as [->|(sv & f & z & _ & _ & _ & H)]; [done|].
    by eapply Hvia; [exact H|..].
  - destruct (hsvvar_on_entry_inputs i ch text st)
      as [->|(sv & v & _ & H)]; [done|].
    by eapply Hvia; [exact H|..].
Qed.

Lemma other_handlers_keep_favorites_witness :
  let st := mkApp 7 25 [(85, 85)] None ["#ABCDEF"] {[ "#ABCDEF" ]} in
  palette_hexes (snd (handle (RemoveRow 0) st)) = ["#ABCDEF"] /\
  palette_hex_set (snd (handle (RemoveRow 0) st)) = {[ "#ABCDEF" ]}.
Proof.
  intros st. apply (other_handlers_keep_favorites (RemoveRow 0) st).
  reflexivity.
Defined.

(** [_on_cols_change] clamps what was typed into [2,360], text that is no
    integer counting as the current count.  When that changes the count,
    the grid is rebuilt and the whole matrix rendered for the new count;
    rows, hue and favorites stay. *)
Theorem on_cols_change_rebuilds (typed : option Z) (st : PaletteApp)
    (xss : list (list string)) :
  let value := clamp MIN_COLS MAX_COLS (default (cols st) typed) in
  value <> cols st ->
  computeMatrix value (h_var st) (rows st) = inr xss ->
  on_cols_change typed st =
    (inr tt, set_cell_hex (Some (filled xss)) (set_cols value st)) /\
  MIN_COLS <= value <= MAX_COLS.
Proof.
  intros value Hne Hm.
  assert (MIN_COLS <= value <= MAX_COLS) as Hv.
  { apply clamp_bounds. unfold MIN_COLS, MAX_COLS. lia. }
  split; [|done].
  unfold on_cols_change. rewrite run_get. fold value.
  rewrite bool_decide_eq_true_2 by done.
  pose proof (rebuild_computeMatrix (set_cols value st)) as Hreb.
  cbn [set_cols cols h_var rows] in Hreb. rewrite Hm in Hreb.
  unfold MIN_COLS in Hv. specialize (Hreb ltac:(lia)).
  rewrite <- Hreb. reflexivity.
Qed.

Lemma on_cols_change_rebuilds_witness :
  let st := mkApp 7 25 [(50, 60)] None [] ∅ in
  on_cols_change (Some 1) st =
    (inr tt,
     set_cell_hex (Some (filled [["#ff6a00"; "#0095ff"]; ["#996c4c"; "#4c7999"]]))
       (set_cols 2 st)).
Proof.
  intros st.
  refine (proj1 (on_cols_change_rebuilds (Some 1) st _ _ _)).
  - vm_compute. discriminate.
  - vm_compute. reflexivity.
Defined.

(** [_remove_row] at an index that is there takes exactly that row out,
    keeps the others in order and renders the matrix of what is left; at
    an index past the end [pop] raises [IndexError] and nothing has
    changed. *)
Theorem remove_row_rebuilds (idx : nat) (st : PaletteApp) :
  1 <= cols st ->
  match rows st !! idx with
  | None => remove_row idx st = (inl Py.IndexError, st)
  | Some _ =>
      match computeMatrix (cols st) (h_var st) (delete idx (rows st)) with
      | inr xss =>
          remove_row idx st =
            (inr tt,
             set_cell_hex (Some (filled xss))
               (set_rows (delete idx (rows st)) st))
      | inl _ =>
          (exists e, fst (remove_row idx st) = inl e) /\
          rows (snd (remove_row idx st)) = delete idx (rows st)
      end
  end.
Proof.
  intros Hc. pose proof (remove_row_inputs idx st) as Hin.
  destruct (rows st !! idx) as [sv|] eqn:Hsv; [|done].
  pose proof (rebuild_computeMatrix (set_rows (delete idx (rows st)) st)) as Hreb.
  cbn [set_rows cols h_var rows] in Hreb. specialize (Hreb Hc).
  assert (remove_row idx st =
          (build_grid;; update_grid) (set_rows (delete idx (rows st)) st)) as Hrun.
  { unfold remove_row. rewrite run_get, Hsv. reflexivity. }
  destruct (computeMatrix _ _ _) as [e|xss].
  - split; [by rewrite Hrun|]. by destruct Hin as (_ & _ & <- & _).
  - by rewrite Hrun.
Qed.

Lemma remove_row_rebuilds_witness :
  let st := mkApp 2 25 [(50, 60); (10, 20)] None [] ∅ in
  remove_row 1 st =
    (inr tt,
     set_cell_hex (Some (filled [["#ff6a00"; "#0095ff"]; ["#996c4c"; "#4c7999"]]))
       (set_rows [(50, 60)] st)).
Proof.
  intros st.
  exact (remove_row_rebuilds 1 st ltac:(simpl; lia)).
Defined.

(** ** [colourutils]: greys, and the channels [is_light] reads *)

Lemma float_of_int_small z :
  0 <= z < 360 -> exists f, Py.float_of_int z = inr f.
Proof.
  intros Hz.
  assert (Hall : forallb (fun n : nat =>
            match Py.float_of_int (Z.of_nat n) with inr _ => true | inl _ => false end)
            (seq 0 360) = true) by (vm_compute; reflexivity).
  rewrite forallb_forall in Hall.
  specialize (Hall (Z.to_nat z)). rewrite Z2Nat.id in Hall by lia.
  destruct (Py.float_of_int z) as [e|f]; [|by exists f].
  discriminate Hall. apply in_seq. lia.
Qed.

(** At saturation 0, [hsv_to_hex] never looks at the hue: whatever the
    two hues are (integers of any size, floats, NaN or an infinity), the
    results for the same value are equal, and a colour that is returned
    has its three channels equal. *)
Theorem hsv_to_hex_zero_saturation (h h' v : Py.num) :
  hsv_to_hex h (Py.Int 0) v = hsv_to_hex h' (Py.Int 0) v /\
  forall x, hsv_to_hex h (Py.Int 0) v = inr x -> exists c, x = format_hex c c c.
Proof.
  assert (forall h0,
    hsv_to_hex h0 (Py.Int 0) v =
      (vf ← Py.to_float v;
       c ← Py.round (Py.max2 0 (Py.min2 1 (vf / 100)) * 255);
       mret (format_hex c c c))) as Hgrey.
  { intros h0. unfold hsv_to_hex, hsv_channels.
    assert (exists hm, Py.to_float (Py.mod360 h0) = inr hm) as [hm ->].
    { destruct h0 as [z|f]; simpl; [|by eexists].
      apply float_of_int_small. apply Z.mod_pos_bound. lia. }
    cbn [mbind Py.sum_bind Py.to_float].
    change (Py.float_of_int 0) with (inr 0%float : Py.exn + float).
    cbn [mbind Py.sum_bind].
    destruct (Py.to_float v) as [e|vf]; [done|]. cbn [mbind Py.sum_bind].
    change (Py.max2 0 (Py.min2 1 (0 / 100))) with 0%float.
    unfold colorsys.hsv_to_rgb.
    change (0 =? 0)%float with true. cbn [mbind Py.sum_bind].
    by destruct (Py.round _) as [e|c]. }
  split; [by rewrite !Hgrey|].
  intros x. rewrite Hgrey.
  destruct (Py.to_float v) as [e|vf]; [done|]. cbn [mbind Py.sum_bind].
  destruct (Py.round _) as [e|c]; [done|]. cbn [mbind Py.sum_bind mret Py.sum_ret].
  intros [= <-]. by exists c.
Qed.

(** On a colour written as ['#'] and six hexadecimal digits, [is_light]
    does not raise: it reads the three channels that [hex_to_rgb_tuple]
    reads and answers whether their luma
    [0.299 r + 0.587 g + 0.114 b] is above 140. *)
Theorem is_light_reads_channels (x : string) :
  is_color x = true ->
  exists r g b rf gf bf,
    hex_to_rgb_tuple x = inr (r, g, b) /\
    Py.float_of_int r = inr rf /\ Py.float_of_int g = inr gf /\
    Py.float_of_int b = inr bf /\
    is_light x = inr (140 <? 0.299 * rf + 0.587 * gf + 0.114 * bf)%float.
Proof.
  destruct x as [|c t]; [done|]. simpl.
  intros [->%bool_decide_eq_true H6]%andb_true_iff.
  pose proof H6 as Hshape. unfold hex6 in Hshape.
  apply andb_true_iff in Hshape as [Hlen Hall]. apply Nat.eqb_eq in Hlen.
  destruct t as [|c0 [|c1 [|c2 [|c3 [|c4 [|c5 [|]]]]]]]; try discriminate Hlen.
  simpl in Hall. repeat (apply andb_true_iff in Hall as [? Hall]).
  destruct (int_of_hex_pair c0 c1) as (r & Hr & ?); [done..|].
  destruct (int_of_hex_pair c2 c3) as (g & Hg & ?); [done..|].
  destruct (int_of_hex_pair c4 c5) as (b & Hb & ?); [done..|].
  destruct (float_of_int_small r) as [rf Hrf]; [lia|].
  destruct (float_of_int_small g) as [gf Hgf]; [lia|].
  destruct (float_of_int_small b) as [bf Hbf]; [lia|].
  exists r, g, b, rf, gf, bf.
  split; [|split; [done|split; [done|split; [done|]]]].
  - unfold hex_to_rgb_tuple. cbn [Py.lstrip_hash].
    destruct (ascii_dec "#" "#"); [|done].
    assert (c0 <> "#"%char) as Hc0.
    { intros ->. discriminate. }
    cbn [Py.lstrip_hash]. destruct (ascii_dec c0 "#"); [done|].
    change (Py.slice 0 (0 + 2) _) with (String c0 (String c1 EmptyString)).
    change (Py.slice 2 (2 + 2) _) with (String c2 (String c3 EmptyString)).
    change (Py.slice 4 (4 + 2) _) with (String c4 (String c5 EmptyString)).
    by rewrite Hr, Hg, Hb.
  - unfold is_light.
    change (Py.slice 1 (1 + 2) _) with (String c0 (String c1 EmptyString)).
    change (Py.slice 3 (3 + 2) _) with (String c2 (String c3 EmptyString)).
    change (Py.slice 5 (5 + 2) _) with (String c4 (String c5 EmptyString)).
    rewrite Hr, Hg, Hb. cbn [mbind Py.sum_bind].
    rewrite Hrf, Hgf, Hbf. reflexivity.
Qed.

Lemma is_light_reads_channels_witness :
  exists r g b rf gf bf,
    hex_to_rgb_tuple "#ff6a00" = inr (r, g, b) /\
    Py.float_of_int r = inr rf /\ Py.float_of_int g = inr gf /\
    Py.float_of_int b = inr bf /\
    is_light "#ff6a00" = inr (140 <? 0.299 * rf + 0.587 * gf + 0.114 * bf)%float.
Proof. apply (is_light_reads_channels "#ff6a00"). reflexivity. Defined.

(** ** Drag: the index the pointer resolves to *)

Lemma row_index_from_y_go_spec y frames : forall i,
  let k := row_index_from_y_go y i frames in
  (i <= k <= i + length frames)%nat /\
  (forall j y0 h, (j < k - i)%nat -> frames !! j = Some (y0, h) ->
     y0 + (y0 + h) <= 2 * y) /\
  (forall y0 h, frames !! (k - i)%nat = Some (y0, h) -> 2 * y < y0 + (y0 + h)).
Proof.
  induction frames as [|[y0 h] frames IH]; intros i; simpl.
  - split; [lia|]. split; [intros; lia|]. intros ? ?. by rewrite lookup_nil.
  - destruct (2 * y <? y0 + (y0 + h)) eqn:Hlt.
    + split; [lia|]. split; [intros; lia|].
      rewrite Nat.sub_diag. simpl. intros ? ? [= <- <-]. lia.
    + destruct (IH (S i)) as (Hk & Hbefore & Hat).
      set (k := row_index_from_y_go y (S i) frames) in *.
      split; [lia|]. split.
      * intros j y0' h' Hj Hl. destruct j as [|j]; simpl in Hl.
        { injection Hl as <- <-. lia. }
        apply (Hbefore j); [lia|done].
      * intros y0' h'. replace (k - i)%nat with (S (k - S i)) by lia.
        simpl. apply Hat.
Qed.

(** [_row_index_from_y] returns the first row whose vertical midpoint lies
    below the pointer, and the number of rows when there is none: an
    index in [0, len(rows)], with every row before it having its midpoint
    at or above the pointer. *)
Theorem row_index_from_y_first (y_local : Z) (frames : list (Z * Z)) :
  let k := row_index_from_y y_local frames in
  (k <= length frames)%nat /\
  (forall j y0 h, (j < k)%nat -> frames !! j = Some (y0, h) ->
     y0 + (y0 + h) <= 2 * y_local) /\
  (forall y0 h, frames !! k = Some (y0, h) -> 2 * y_local < y0 + (y0 + h)).
Proof.
  destruct (row_index_from_y_go_spec y_local frames 0) as (Hk & Hb & Ha).
  unfold row_index_from_y. simpl. rewrite Nat.sub_0_r in Hb, Ha.
  split; [lia|]. by split.
Qed.

Lemma row_index_from_y_first_witness :
  Nat.le (row_index_from_y 75 [(0, 40); (40, 40); (80, 40)]) 3.
Proof.
  exact (proj1 (row_index_from_y_first 75 [(0, 40); (40, 40); (80, 40)])).
Defined.

(** Releasing a drag anywhere, with one frame per row, only reorders the
    rows: the insert index [_row_index_from_y] computes is never past the
    end, so the rows after the release are a permutation of the rows
    before, and columns, hue and favorites are what they were. *)
Theorem drag_release_permutes (start : nat) (y_local : Z)
    (frames : list (Z * Z)) (st : PaletteApp) :
  length frames = length (rows st) ->
  (start < length (rows st))%nat ->
  let st' := snd (drag_release start y_local frames st) in
  (rows st' ≡ₚ rows st) /\
  cols st' = cols st /\ h_var st' = h_var st /\
  palette_hexes st' = palette_hexes st.
Proof.
  intros Hlen Hstart. unfold drag_release. simpl.
  destruct (row_index_from_y_go_spec y_local frames 0) as (Hk & _).
  fold (row_index_from_y y_local frames) in Hk.
  set (k := row_index_from_y y_local frames) in *.
  destruct (drag_end_inputs start k st) as [->|(row & Hrow & Hsame)]; [done|].
  destruct Hsame as (<- & <- & <- & <- & _). simpl.
  split; [|done].
  apply (list_insert_at_delete (rows st) start _ row Hrow).
  rewrite length_delete by (by eexists).
  unfold resolved_index. case_bool_decide; lia.
Qed.

Lemma drag_release_permutes_witness :
  let st := mkApp 2 25 [(85, 85); (70, 70); (55, 55)] None [] ∅ in
  rows (snd (drag_release 0 200 [(0, 40); (40, 40); (80, 40)] st)) ≡ₚ rows st.
Proof.
  intros st.
  refine (proj1 (drag_release_permutes 0 200 [(0, 40); (40, 40); (80, 40)] st _ _));
    simpl; lia.
Defined.

(** ** Layout *)

(** The favorites window: for at least one favorite
    [_palette_compute_cols] gives between 1 and 8 columns, never more
    than there are favorites and never more than fit at 92 pixels each
    (one column always being allowed); the cells [_rebuild_palette_grid]
    assigns lie within that many columns and within the rows it
    stretches, and no two favorites get the same cell. *)
Theorem palette_grid_layout (width count idx idx' : Z) :
  1 <= count -> 0 <= idx < count -> 0 <= idx' < count ->
  let ncols := palette_compute_cols width count in
  1 <= ncols <= palette_max_cols /\ ncols <= count /\
  (ncols = 1 \/ ncols * palette_min_tile <= width) /\
  0 <= (palette_cell ncols idx).1 < palette_grid_rows ncols count /\
  0 <= (palette_cell ncols idx).2 < ncols /\
  (palette_cell ncols idx = palette_cell ncols idx' -> idx = idx').
Proof.
  intros Hcount Hidx Hidx'. simpl.
  set (ncols := palette_compute_cols width count).
  assert (1 <= ncols <= 8 /\ ncols <= count /\
          (ncols = 1 \/ ncols * 92 <= width)) as (Hn & Hc & Hfit).
  { unfold ncols, palette_compute_cols, palette_max_cols, palette_min_tile.
    replace (Z.max 60 92) with 92 by reflexivity.
    set (w := Z.max 1 (if width =? 0 then 1 else width)).
    assert (w = 1 \/ w = width) as Hw.
    { unfold w. destruct (width =? 0) eqn:H0; lia. }
    pose proof (Z.div_mod w 92 ltac:(lia)) as Hdm.
    pose proof (Z.mod_pos_bound w 92 ltac:(lia)) as Hmb.
    assert (0 <= w / 92) by (apply Z.div_pos; lia).
    lia. }
  unfold palette_max_cols, palette_min_tile, palette_cell, palette_grid_rows.
  simpl.
  pose proof (Z.div_mod idx ncols ltac:(lia)) as Hdm.
  pose proof (Z.mod_pos_bound idx ncols ltac:(lia)) as Hmb.
  pose proof (Z.div_mod idx' ncols ltac:(lia)) as Hdm'.
  pose proof (Z.div_mod (count + ncols - 1) ncols ltac:(lia)) as Hdr.
  pose proof (Z.mod_pos_bound (count + ncols - 1) ncols ltac:(lia)) as Hmr.
  assert (0 <= idx / ncols) by (apply Z.div_pos; lia).
  split; [done|]. split; [done|]. split; [done|].
  split; [split; [done|nia]|]. split; [done|].
  intros [= Hq Hr]. rewrite Hq, Hr in Hdm. lia.
Qed.

Lemma palette_grid_layout_witness :
  1 <= palette_compute_cols 400 11 <= palette_max_cols.
Proof.
  exact (proj1
    (palette_grid_layout 400 11 9 10 ltac:(lia) ltac:(lia) ltac:(lia))).
Defined.

(** The exported PNG: with the cell size [_export_png] measures (at least
    40 by 40), every cell's rectangle lies inside the image with the gap
    of 8 pixels before it, and the rectangles of two different cells share
    no pixel. *)
Theorem png_cells_tile (ncols total_rows cell_w cell_h r c r' c' : Z) :
  40 <= cell_w -> 40 <= cell_h ->
  0 <= r < total_rows -> 0 <= c < ncols ->
  0 <= r' < total_rows -> 0 <= c' < ncols ->
  let '(img_w, img_h) := png_size ncols total_rows cell_w cell_h in
  let '(x0, y0, x1, y1) := png_cell cell_w cell_h r c in
  png_gap <= x0 /\ x0 < x1 < img_w /\
  png_gap <= y0 /\ y0 < y1 < img_h /\
  ((r, c) <> (r', c') ->
   rect_disjoint (png_cell cell_w cell_h r c) (png_cell cell_w cell_h r' c')).
Proof.
  intros Hw Hh Hr Hc Hr' Hc'. unfold png_size, png_cell, png_gap. simpl.
  split; [nia|]. split; [nia|]. split; [nia|]. split; [nia|].
  intros Hne.
  assert (r <> r' \/ c <> c') as [H|H].
  { destruct (decide (r = r')) as [->|]; [|by left].
    right. intros ->. done. }
  - destruct (Z.lt_total r r') as [?|[?|?]]; [|done|]; nia.
  - destruct (Z.lt_total c c') as [?|[?|?]]; [|done|]; nia.
Qed.

Lemma png_cells_tile_witness :
  rect_disjoint (png_cell 120 48 1 2) (png_cell 120 48 1 3).
Proof.
  refine (proj2 (proj2 (proj2 (proj2
    (png_cells_tile 7 6 120 48 1 2 1 3 _ _ _ _ _ _)))) _);
    try lia. discriminate.
Defined.

(** ** Import: the shape of the [hex] section *)

Lemma check_hex_none hs ncols rs :
  check_hex hs ncols rs = None ->
  forall r, r ∈ rs ->
    exists line,
      hs !! row_key r = Some line /\
      Z.of_nat (length (hex_items line)) = ncols /\
      Forall (fun x => bad_token x = false) (hex_items line).
Proof.
  induction rs as [|r0 rs IH]; intros Hck r Hr; [by apply elem_of_nil in Hr|].
  simpl in Hck.
  destruct (hs !! row_key r0) as [line|] eqn:Hline; [|discriminate].
  destruct (negb _ || _) eqn:Hbad; [discriminate|].
  apply orb_false_iff in Hbad as [Hlen Hex].
  apply elem_of_cons in Hr as [->|Hr]; [|by apply IH].
  exists line. split; [done|]. split.
  - apply negb_false_iff, Z.eqb_eq in Hlen. done.
  - apply Forall_forall. intros x Hx.
    destruct (bad_token x) eqn:Hb; [|done].
    assert (existsb bad_token (hex_items line) = true) as Hc; [|congruence].
    apply existsb_exists. exists x. split; [by apply list_elem_of_In|done].
Qed.

(** An import succeeds only on a document whose [hex] section has a line
    for each of the rows 1 to [rows_count + 1], each line holding exactly
    [cols] items of seven characters that start with ['#']. *)
Theorem import_success_hex_shape (cfg : ConfigParser) (st st' : PaletteApp) :
  import_ini cfg st = (inr Imported, st') ->
  exists hex_sec,
    cfg !! "hex" = Some hex_sec /\
    forall r, 1 <= r <= 1 + Z.of_nat (length (rows st')) ->
      exists line,
        hex_sec !! row_key r = Some line /\
        Z.of_nat (length (hex_items line)) = cols st' /\
        Forall (fun x => Py.len x = 7 /\ Py.startswith_hash x = true)
          (hex_items line).
Proof.
  intros Himp.
  destruct (import_ini_imported _ _ _ Himp) as (c & h & sv & xss & Hval & _ & Hpal).
  apply import_palette_frame in Hpal as (-> & _ & -> & _). simpl.
  destruct Hval as (inputs & hex_sec & _ & Hh & _ & _ & _ & _ & _ & _ & _ & Hck).
  exists hex_sec. split; [done|]. intros r Hr.
  destruct (check_hex_none _ _ _ Hck r) as (line & Hl & Hn & Hok).
  { apply elem_of_range_from. exists (Z.to_nat (r - 1)). lia. }
  exists line. split; [done|]. split; [done|].
  eapply Forall_impl; [exact Hok|]. intros x Hx. unfold bad_token in Hx.
  apply orb_false_iff in Hx as [H7 Hs].
  apply negb_false_iff in H7, Hs. apply Z.eqb_eq in H7. done.
Qed.

Lemma import_success_hex_shape_witness :
  let doc := make_doc
    [("inputs", [("cols", "2"); ("h", "0"); ("rows_count", "0")]);
     ("hex", [("row1", "#FF0000 #00FFFF")])] in
  let st := mkApp 7 25 [(85, 85)] None ["#ABCDEF"] {["#ABCDEF"]} in
  exists hex_sec,
    doc !! "hex" = Some hex_sec /\
    forall r, 1 <= r <= 1 + Z.of_nat (length (rows (snd (import_ini doc st)))) ->
      exists line,
        hex_sec !! row_key r = Some line /\
        Z.of_nat (length (hex_items line)) = cols (snd (import_ini doc st)) /\
        Forall (fun x => Py.len x = 7 /\ Py.startswith_hash x = true)
          (hex_items line).
Proof.
  intros doc st.
  apply (import_success_hex_shape doc st (snd (import_ini doc st))).
  vm_compute. reflexivity.
Defined.

(** ** The line format of colours *)

(** What [_export_ini] writes as a line, items joined by single spaces,
    [_import_ini] reads back as the same items in the same order,
    upper-cased, provided each item is non-empty and free of blanks; the
    empty list is written as the empty line and read back as no item. *)
Theorem hex_line_round_trip (toks : list string) :
  Forall (fun t => is_token t = true) toks ->
  hex_items (Py.join " " toks) = Py.upper <$> toks /\
  length (hex_items (Py.join " " toks)) = length toks /\
  (Py.truthy (Py.strip (Py.join " " toks)) = false <-> toks = []).
Proof.
  intros Htoks. rewrite (hex_items_join _ Htoks).
  split; [done|]. split; [by rewrite length_fmap|].
  rewrite (strip_join _ Htoks). destruct toks as [|t toks]; [done|].
  split; [|done]. intros Hf.
  apply Forall_cons in Htoks as [Ht _].
  unfold is_token in Ht. apply andb_true_iff in Ht as [Ht _].
  destruct t; [done|]. destruct toks; discriminate Hf.
Qed.

Lemma hex_line_round_trip_witness :
  hex_items (Py.join " " ["#ff6a00"; "#0095ff"]) = ["#FF6A00"; "#0095FF"].
Proof.
  refine (proj1 (hex_line_round_trip ["#ff6a00"; "#0095ff"] _)).
  repeat constructor.
Defined.

Lemma truthy_upper s : Py.truthy (Py.upper s) = Py.truthy s.
Proof. by destruct s. Qed.

Lemma filter_upper_twice u l :
  List.filter (fun h => negb (bool_decide (Py.upper h = u)))
    (List.filter (fun h => negb (bool_decide (Py.upper h = u))) l) =
  List.filter (fun h => negb (bool_decide (Py.upper h = u))) l.
Proof.
  induction l as [|h l IH]; [done|]. simpl.
  destruct (negb (bool_decide (Py.upper h = u))) eqn:Hh; [|done].
  simpl. by rewrite Hh, IH.
Qed.

Lemma palette_add_color_noop hex st :
  Py.truthy hex = false \/
  Py.upper hex ∈ Py.upper <$> palette_hexes st \/
  Py.upper hex ∈ palette_hex_set st ->
  snd (palette_add_color hex st) = st.
Proof.
  intros H. unfold palette_add_color. rewrite run_get.
  destruct (Py.truthy hex); simpl; [|done].
  case_bool_decide as Hin; [done|].
  case_bool_decide as Hset; [done|].
  by destruct H as [?|[?|?]].
Qed.

Lemma palette_add_color_cases hex st :
  (Py.truthy hex = false \/
   Py.upper hex ∈ Py.upper <$> palette_hexes st \/
   Py.upper hex ∈ palette_hex_set st) \/
  snd (palette_add_color hex st) =
    set_palette_hex_set ({[Py.upper hex]} ∪ palette_hex_set st)
      (set_palette_hexes (palette_hexes st ++ [Py.upper hex]) st).
Proof.
  unfold palette_add_color. rewrite run_get.
  destruct (Py.truthy hex); simpl; [|by left; left].
  case_bool_decide as Hin; [by left; right; left|].
  case_bool_decide as Hset; [by left; right; right|].
  by right.
Qed.

(** Adding a colour a second time, in whatever case it is written, changes
    nothing, whether the first call added it or not; and so does removing
    a colour a second time. *)
Theorem palette_add_remove_idempotent (hex hex' : string) (st : PaletteApp) :
  Py.upper hex' = Py.upper hex ->
  snd (palette_add_color hex' (snd (palette_add_color hex st))) =
    snd (palette_add_color hex st) /\
  snd (palette_remove_ctx hex' (snd (palette_remove_ctx hex st))) =
    snd (palette_remove_ctx hex st).
Proof.
  intros Hu.
  assert (Py.truthy hex' = Py.truthy hex) as Ht.
  { by rewrite <- (truthy_upper hex'), Hu, truthy_upper. }
  split.
  - apply palette_add_color_noop. rewrite Ht, Hu.
    destruct (palette_add_color_cases hex st) as [H| ->].
    + by rewrite (palette_add_color_noop hex st H).
    + right. left. simpl. rewrite fmap_app, elem_of_app. right.
      simpl. rewrite upper_idem. by apply list_elem_of_singleton.
  - unfold palette_remove_ctx. rewrite Ht, Hu.
    destruct (Py.truthy hex); simpl; [|done].
    unfold set_palette_hexes, set_palette_hex_set. simpl.
    rewrite filter_upper_twice. f_equal.
    apply leibniz_equiv. set_solver.
Qed.

Lemma palette_add_remove_idempotent_witness :
  let st := mkApp 7 25 [] None ["#00FF00"] {[ "#00FF00" ]} in
  snd (palette_add_color "#FF0000" (snd (palette_add_color "#ff0000" st))) =
    snd (palette_add_color "#ff0000" st).
Proof.
  intros st.
  exact (proj1 (palette_add_remove_idempotent "#ff0000" "#FF0000" st eq_refl)).
Defined.
